(** * A shallow embedding of [unpack_swf.py] (mirror12k/analyze-swf-file)

    The Python class [SWFFile] mutates [self] and a file handle; it is
    modelled as a record [SWFFile] threaded through a state and exception
    monad [M].  The handle is the list of the file's bytes (each a Z in
    0..255) with a cursor; [print] goes to an output trace; a Python
    exception is a [Raise].  Decompression is not modelled: the handle is
    the (already decompressed) byte content the parser reads. *)

From Stdlib Require Import ZArith List String Ascii Bool Lia.
Import ListNotations.
Open Scope string_scope.
Open Scope Z_scope.

(** ** Data *)

Record SWFRect := mkSWFRect {
  xmin : Z; xmax : Z; ymin : Z; ymax : Z }.

(** [SWFTag]: fields [code], [length] (here [tag_length], to keep
    [List.length] visible) and [typeName]. *)
Record SWFTag := mkSWFTag {
  code : Z; tag_length : Z; typeName : string }.

(** What the parser prints while it works (only the two warnings that the
    parsing methods themselves print). *)
Inductive Output :=
| WarnUnknownTagCode (c : Z)   (* 'warning: unknown swf tag code: ' + str(c) *)
| WarnTagsAfterEnd.            (* 'warning: swf has tags after an end tag!' *)

(** Python exceptions the parsing methods can raise. *)
Inductive Exc :=
| StructError                       (* struct.error: wrong buffer size *)
| UnicodeDecodeError                (* bytes.decode('ascii') on a byte >= 0x80 *)
| OSError                           (* seek to a negative position *)
| BitstructError                    (* bitstruct.Error *)
| SWFFileUnpackingException (msg : string)
| FuelExhausted.                    (* loop bound of the model, never reached *)

Record SWFFile := mkSWFFile {
  handle : list Z;          (* content of the open file *)
  cursor : nat;             (* position of the handle *)
  compression : option string;
  signature : option string;
  version : option Z;
  fileLength : option Z;
  frameSize : option SWFRect;
  frameRate : option Z;
  frameCount : option Z;
  tags : list SWFTag;
  stdout : list Output }.

Definition set_cursor (n : nat) (s : SWFFile) : SWFFile :=
  mkSWFFile (handle s) n (compression s) (signature s) (version s)
    (fileLength s) (frameSize s) (frameRate s) (frameCount s) (tags s) (stdout s).
Definition set_compression (c : string) (s : SWFFile) : SWFFile :=
  mkSWFFile (handle s) (cursor s) (Some c) (signature s) (version s)
    (fileLength s) (frameSize s) (frameRate s) (frameCount s) (tags s) (stdout s).
Definition set_signature (g : string) (s : SWFFile) : SWFFile :=
  mkSWFFile (handle s) (cursor s) (compression s) (Some g) (version s)
    (fileLength s) (frameSize s) (frameRate s) (frameCount s) (tags s) (stdout s).
Definition set_version_fileLength (v l : Z) (s : SWFFile) : SWFFile :=
  mkSWFFile (handle s) (cursor s) (compression s) (signature s) (Some v)
    (Some l) (frameSize s) (frameRate s) (frameCount s) (tags s) (stdout s).
Definition set_frameSize (r : SWFRect) (s : SWFFile) : SWFFile :=
  mkSWFFile (handle s) (cursor s) (compression s) (signature s) (version s)
    (fileLength s) (Some r) (frameRate s) (frameCount s) (tags s) (stdout s).
Definition set_frameRate_frameCount (r c : Z) (s : SWFFile) : SWFFile :=
  mkSWFFile (handle s) (cursor s) (compression s) (signature s) (version s)
    (fileLength s) (frameSize s) (Some r) (Some c) (tags s) (stdout s).
Definition set_tags (ts : list SWFTag) (s : SWFFile) : SWFFile :=
  mkSWFFile (handle s) (cursor s) (compression s) (signature s) (version s)
    (fileLength s) (frameSize s) (frameRate s) (frameCount s) ts (stdout s).
Definition set_stdout (o : list Output) (s : SWFFile) : SWFFile :=
  mkSWFFile (handle s) (cursor s) (compression s) (signature s) (version s)
    (fileLength s) (frameSize s) (frameRate s) (frameCount s) (tags s) o.

(** ** The state and exception monad *)

Inductive Result (A : Type) :=
| Ok (a : A) (s : SWFFile)
| Raise (e : Exc).
Arguments Ok {A} a s.
Arguments Raise {A} e.

Definition M (A : Type) := SWFFile -> Result A.

Definition ret {A} (a : A) : M A := fun s => Ok a s.
Definition raise {A} (e : Exc) : M A := fun _ => Raise e.
Definition bind {A B} (m : M A) (k : A -> M B) : M B :=
  fun s => match m s with Ok a s' => k a s' | Raise e => Raise e end.
Definition get : M SWFFile := fun s => Ok s s.
Definition modify (f : SWFFile -> SWFFile) : M unit := fun s => Ok tt (f s).

Notation "x <- m ;; k" := (bind m (fun x => k))
  (at level 61, m at next level, right associativity).

Definition print (o : Output) : M unit :=
  modify (fun s => set_stdout (stdout s ++ [o])%list s).

(** [self.handle.read(n)]: at most [n] bytes from the cursor, which moves
    past what was returned; fewer (down to none) at the end of the file. *)
Definition read (n : nat) : M (list Z) :=
  fun s => let bs := firstn n (skipn (cursor s) (handle s)) in
           Ok bs (set_cursor (cursor s + List.length bs) s).

(** [self.handle.seek(d, os.SEEK_CUR)]: a negative target raises. *)
Definition seek_cur (d : Z) : M unit :=
  fun s => let p := Z.of_nat (cursor s) + d in
           if p <? 0 then Raise OSError else Ok tt (set_cursor (Z.to_nat p) s).

(** ** struct, bytes.decode and bitstruct *)

(** Little-endian unsigned value of a byte string. *)
Fixpoint le_uint (bs : list Z) : Z :=
  match bs with [] => 0 | b :: r => b + 256 * le_uint r end.

(** [struct.unpack('<H', bs)] (n = 2) and [struct.unpack('<I', bs)] (n = 4):
    the buffer must have exactly [n] bytes. *)
Definition unpack_le (n : nat) (bs : list Z) : M Z :=
  if Nat.eqb (List.length bs) n then ret (le_uint bs) else raise StructError.

(** [bytes.decode('ascii')]. *)
Fixpoint string_of_bytes (bs : list Z) : string :=
  match bs with
  | [] => EmptyString
  | b :: r => String (ascii_of_nat (Z.to_nat b)) (string_of_bytes r)
  end.
Definition decode_ascii (bs : list Z) : M string :=
  if forallb (fun b => b <? 128) bs then ret (string_of_bytes bs)
  else raise UnicodeDecodeError.

(** bitstruct reads a bytes object as one big-endian bit string. *)
Definition bits_of (bs : list Z) : Z := fold_left (fun acc b => acc * 256 + b) bs 0.

(** Unsigned field of [w] bits at bit offset [off] (MSB first). *)
Definition field_u (bs : list Z) (off w : Z) : Z :=
  Z.land (Z.shiftr (bits_of bs) (8 * Z.of_nat (List.length bs) - off - w)) (Z.ones w).

(** Signed (two's complement) field of [w] bits at bit offset [off]. *)
Definition field_s (bs : list Z) (off w : Z) : Z :=
  let u := field_u bs off w in if Z.testbit u (w - 1) then u - 2 ^ w else u.

(** [bitstruct.unpack('u5', data)]. *)
Definition bitstruct_unpack_u5 (data : list Z) : M Z :=
  if 8 * Z.of_nat (List.length data) <? 5 then raise BitstructError
  else ret (field_u data 0 5).

(** [bitstruct.unpack('p5' + ('s' + str(size)) * 4, data)]: bitstruct refuses
    a field of size 0 ("bad format") and a buffer shorter than the format. *)
Definition bitstruct_unpack_rect (size : Z) (data : list Z) : M (Z * Z * Z * Z) :=
  if size =? 0 then raise BitstructError
  else if 8 * Z.of_nat (List.length data) <? 5 + 4 * size then raise BitstructError
  else ret (field_s data 5 size, field_s data (5 + size) size,
            field_s data (5 + 2 * size) size, field_s data (5 + 3 * size) size).

(** [math.ceil(a / b)] for integers [a] and [b > 0]; the float quotient is
    exact for the small values the parser divides. *)
Definition py_ceil_div (a b : Z) : Z := - ((- a) / b).

(** ** The tag code registry: [tagCodeTranslation] and [dict.get] *)

Definition tagCodeTranslation : list (Z * string) :=
  [(0,"End"); (1,"ShowFrame"); (2,"DefineShape"); (4,"PlaceObject");
   (5,"RemoveObject"); (6,"DefineBits"); (7,"DefineButton"); (8,"JPEGTables");
   (9,"SetBackgroundColor"); (10,"DefineFont"); (11,"DefineText"); (12,"DoAction");
   (13,"DefineFontInfo"); (14,"DefineSound"); (15,"StartSound");
   (17,"DefineButtonSound"); (18,"SoundStreamHead"); (19,"SoundStreamBlock");
   (20,"DefineBitsLossless"); (21,"DefineBitsJPEG2"); (22,"DefineShape2");
   (23,"DefineButtonCxform"); (24,"Protect"); (26,"PlaceObject2");
   (28,"RemoveObject2"); (32,"DefineShape3"); (33,"DefineText2");
   (34,"DefineButton2"); (35,"DefineBitsJPEG3"); (36,"DefineBitsLossless2");
   (37,"DefineEditText"); (39,"DefineSprite"); (41,"ProductInfo");
   (43,"FrameLabel"); (45,"SoundStreamHead2"); (46,"DefineMorphShape");
   (48,"DefineFont2"); (56,"ExportAssets"); (57,"ImportAssets");
   (58,"EnableDebugger"); (59,"DoInitAction"); (60,"DefineVideoStream");
   (61,"VideoFrame"); (62,"DefineFontInfo2"); (63,"DebugID");
   (64,"EnableDebugger2"); (65,"ScriptLimits"); (66,"SetTabIndex");
   (69,"FileAttributes"); (70,"PlaceObject3"); (71,"ImportAssets2");
   (73,"DefineFontAlignZones"); (74,"CSMTextSettings"); (75,"DefineFont3");
   (76,"SymbolClass"); (77,"Metadata"); (78,"DefineScalingGrid"); (82,"DoABC");
   (83,"DefineShape4"); (84,"DefineMorphShape2");
   (86,"DefineSceneAndFrameLabelData"); (87,"DefineBinaryData");
   (88,"DefineFontName"); (89,"StartSound2"); (90,"DefineBitsJPEG4");
   (91,"DefineFont4"); (93,"EnableTelemetry")].

Fixpoint dict_lookup (d : list (Z * string)) (k : Z) : option string :=
  match d with
  | [] => None
  | (k', v) :: r => if k =? k' then Some v else dict_lookup r k
  end.

Definition dict_get (d : list (Z * string)) (k : Z) (default : string) : string :=
  match dict_lookup d k with Some v => v | None => default end.

(** ** [SWFTag] *)

(** [SWFTag.__init__]. *)
Definition new_SWFTag (c l : Z) : M SWFTag :=
  let tn := dict_get tagCodeTranslation c "!UNKNOWN!" in
  _ <- (if String.eqb tn "!UNKNOWN!" then print (WarnUnknownTagCode c) else ret tt) ;;
  ret (mkSWFTag c l tn).

(** [SWFTag.isEndTag]. *)
Definition isEndTag (t : SWFTag) : bool := String.eqb (typeName t) "End".

(** ** [SWFFile] parsing methods *)

Definition append_tag (t : SWFTag) : M unit :=
  modify (fun s => set_tags (tags s ++ [t])%list s).

(** [SWFFile.unpackTagHeader]. *)
Definition unpackTagHeader : M SWFTag :=
  bs <- read 2 ;;
  data <- unpack_le 2 bs ;;
  let tagCode := Z.shiftr data 6 in
  let tagLength := Z.land data 63 in
  tagLength <- (if tagLength =? 63 then (bs4 <- read 4 ;; unpack_le 4 bs4)
                else ret tagLength) ;;
  new_SWFTag tagCode tagLength.

(** [SWFFile.unpackTag]: the payload read is not checked. *)
Definition unpackTag : M SWFTag :=
  tag <- unpackTagHeader ;;
  _ <- read (Z.to_nat (tag_length tag)) ;;
  ret tag.

(** The [while len(sample) > 0] loop of [SWFFile.unpackTags]; [tag] is the
    previously parsed tag ([None] before the first).  Each iteration moves
    the cursor forward, so [fuel] beyond the file length is never used up. *)
Fixpoint unpackTags_loop (fuel : nat) (tag : option SWFTag) (sample : list Z)
  : M unit :=
  match fuel with
  | O => raise FuelExhausted
  | S fuel' =>
      match sample with
      | [] => ret tt
      | _ :: _ =>
          _ <- (match tag with
                | Some t => if isEndTag t then print WarnTagsAfterEnd else ret tt
                | None => ret tt
                end) ;;
          _ <- seek_cur (-2) ;;
          tag <- unpackTag ;;
          _ <- append_tag tag ;;
          sample <- read 2 ;;
          unpackTags_loop fuel' (Some tag) sample
      end
  end.

(** [SWFFile.unpackTags]. *)
Definition unpackTags : M unit :=
  s <- get ;;
  sample <- read 2 ;;
  unpackTags_loop (S (List.length (handle s))) None sample.

(** [SWFFile.unpackRect]. *)
Definition unpackRect : M SWFRect :=
  data <- read 1 ;;
  size <- bitstruct_unpack_u5 data ;;
  more <- read (Z.to_nat (py_ceil_div (size * 4 - 3) 8)) ;;
  let data := (data ++ more)%list in
  v <- bitstruct_unpack_rect size data ;;
  let '(xmin, xmax, ymin, ymax) := v in
  ret (mkSWFRect xmin xmax ymin ymax).

(** [SWFFile.unpackHeader2]. *)
Definition unpackHeader2 : M unit :=
  r <- unpackRect ;;
  _ <- modify (set_frameSize r) ;;
  bs <- read 4 ;;
  if Nat.eqb (List.length bs) 4 then
    modify (set_frameRate_frameCount (le_uint (firstn 2 bs)) (le_uint (skipn 2 bs)))
  else raise StructError.

Definition dquote : string := String (ascii_of_nat 34) EmptyString.

(** [SWFFile.unpackHeader1]: [struct.unpack('<3sBI', header)] needs exactly
    8 bytes. *)
Definition unpackHeader1 : M unit :=
  header <- read 8 ;;
  if negb (Nat.eqb (List.length header) 8) then raise StructError else
  let sig := firstn 3 header in
  _ <- modify (set_version_fileLength (nth 3 header 0) (le_uint (skipn 4 header))) ;;
  signature <- decode_ascii sig ;;
  _ <- (if String.eqb signature "FWS" then modify (set_compression "none")
        else if String.eqb signature "CWS" then modify (set_compression "zlib")
        else if String.eqb signature "ZWS" then modify (set_compression "lzma")
        else raise (SWFFileUnpackingException
                      ("unknown file signature: " ++ dquote ++ signature ++ dquote))) ;;
  modify (set_signature signature).

(** A freshly opened file, as [SWFFile.__init__] leaves it before [load]. *)
Definition open_file (bs : list Z) : SWFFile :=
  mkSWFFile bs 0 None None None None None None None [] [].

(** ** Encoding of tag streams, used to state properties of the parser *)

(** [n] little-endian bytes of [v]. *)
Fixpoint le_bytes (n : nat) (v : Z) : list Z :=
  match n with
  | O => []
  | S n' => v mod 256 :: le_bytes n' (v / 256)
  end.

(** A tag record as written in a file: code, declared length, whether the
    long form (inline length 0x3F then a u32 length) is used, payload. *)
Record TagRec := mkTagRec {
  tr_code : Z; tr_len : Z; tr_long : bool; tr_payload : list Z }.

Definition encode_header (c l : Z) (long : bool) : list Z :=
  if long then (le_bytes 2 (c * 64 + 63) ++ le_bytes 4 l)%list
  else le_bytes 2 (c * 64 + l).

Definition encode_tag (r : TagRec) : list Z :=
  (encode_header (tr_code r) (tr_len r) (tr_long r) ++ tr_payload r)%list.

Definition encode_tags (rs : list TagRec) : list Z := List.concat (map encode_tag rs).

(** A header the format can express: 10-bit code, u32 length, and a short
    form only for lengths below 0x3F. *)
Definition wf_header (r : TagRec) : Prop :=
  0 <= tr_code r < 1024 /\ 0 <= tr_len r < 2 ^ 32 /\
  (tr_long r = false -> tr_len r < 63).

(** A complete tag: the payload has exactly the declared length. *)
Definition wf_tag (r : TagRec) : Prop :=
  wf_header r /\ List.length (tr_payload r) = Z.to_nat (tr_len r).

(** The [SWFTag] built for a code and a length. *)
Definition tag_of (c l : Z) : SWFTag :=
  mkSWFTag c l (dict_get tagCodeTranslation c "!UNKNOWN!").

Definition tag_of_rec (r : TagRec) : SWFTag := tag_of (tr_code r) (tr_len r).

(** What [SWFTag.__init__] prints. *)
Definition unknown_out (c : Z) : list Output :=
  if String.eqb (dict_get tagCodeTranslation c "!UNKNOWN!") "!UNKNOWN!"
  then [WarnUnknownTagCode c] else [].

(** What the loop prints before parsing a tag that follows [prev]. *)
Definition after_end_out (prev : option SWFTag) : list Output :=
  match prev with
  | Some t => if isEndTag t then [WarnTagsAfterEnd] else []
  | None => []
  end.

(** Everything printed while parsing the tags [rs], the first one
    following [prev]. *)
Fixpoint tags_out (prev : option SWFTag) (rs : list TagRec) : list Output :=
  match rs with
  | [] => []
  | r :: rs' =>
      (after_end_out prev ++ unknown_out (tr_code r) ++
       tags_out (Some (tag_of_rec r)) rs')%list
  end.

(** The state after the cursor moved to [n], tags [ts] were appended and
    [o] was printed. *)
Definition after (s : SWFFile) (n : nat) (ts : list SWFTag) (o : list Output) : SWFFile :=
  set_stdout (stdout s ++ o)%list (set_tags (tags s ++ ts)%list (set_cursor n s)).

Definition count_after_end (o : list Output) : nat :=
  List.length (filter (fun x => match x with WarnTagsAfterEnd => true | _ => false end) o).

(** Number of places in a tag list where a tag directly follows an End tag. *)
Fixpoint adjacent_end_pairs (ts : list SWFTag) : nat :=
  match ts with
  | x :: ((_ :: _) as tl) => ((if isEndTag x then 1 else 0) + adjacent_end_pairs tl)%nat
  | _ => O
  end.

(** The unknown-code warnings of a list of tags. *)
Definition unknowns_out (rs : list TagRec) : list Output :=
  flat_map (fun r => unknown_out (tr_code r)) rs.

Definition opt_cons {A} (o : option A) (l : list A) : list A :=
  match o with Some x => x :: l | None => l end.

(** Every element of a byte string is a byte (what a file read returns). *)
Definition byte_range (bs : list Z) : Prop := Forall (fun b => 0 <= b < 256) bs.

(** A tag as [unpackTagHeader] can build it: a 10-bit code, a u32 length and
    the type name [SWFTag.__init__] gives that code. *)
Definition tag_ok (t : SWFTag) : Prop :=
  0 <= code t < 1024 /\ 0 <= tag_length t < 2 ^ 32 /\ t = tag_of (code t) (tag_length t).

(** [n] big-endian bytes of [v]. *)
Fixpoint be_bytes (n : nat) (v : Z) : list Z :=
  match n with
  | O => []
  | S n' => (v / 256 ^ Z.of_nat n') mod 256 :: be_bytes n' v
  end.

(** The 5 + 4 w bits of a rect of width [w]: the width, then the four fields
    in two's complement, most significant bit first. *)
Definition rect_bits (w x0 x1 x2 x3 : Z) : Z :=
  w * 2 ^ (4 * w) + (x0 mod 2 ^ w) * 2 ^ (3 * w) + (x1 mod 2 ^ w) * 2 ^ (2 * w)
  + (x2 mod 2 ^ w) * 2 ^ w + x3 mod 2 ^ w.

(** The number of whole bytes a rect of width [w] takes. *)
Definition rect_nbytes (w : Z) : nat := Z.to_nat ((5 + 4 * w + 7) / 8).

(** The bytes of a rect, padded with zero bits to a whole byte. *)
Definition encode_rect (w x0 x1 x2 x3 : Z) : list Z :=
  be_bytes (rect_nbytes w)
    (rect_bits w x0 x1 x2 x3 * 2 ^ (8 * Z.of_nat (rect_nbytes w) - (5 + 4 * w))).

(** A value that fits a signed field of [w] bits. *)
Definition fits_signed (w x : Z) : Prop := - 2 ^ (w - 1) <= x < 2 ^ (w - 1).

(** The tag the loop has last parsed after the tags of [rs], starting from
    [prev]. *)
Fixpoint last_prev (prev : option SWFTag) (rs : list TagRec) : option SWFTag :=
  match rs with [] => prev | r :: rs' => last_prev (Some (tag_of_rec r)) rs' end.

(** ** Tests on concrete files *)

Example test_unpackTag_43_02 :
  unpackTag (open_file [67; 2; 1; 2; 3]) =
  Ok (mkSWFTag 9 3 "SetBackgroundColor") (set_cursor 5 (open_file [67; 2; 1; 2; 3])).
Proof. reflexivity. Qed.

Example test_unpackRect_15 :
  match unpackRect (open_file [127; 249; 192; 50; 0; 0; 1; 244; 0]) with
  | Ok r s => (xmin r, xmax r, ymin r, ymax r, cursor s) = (-100, 400, 0, 1000, 9%nat)
  | Raise _ => False
  end.
Proof. vm_compute. reflexivity. Qed.

(** ** Lemmas on the monad and the handle *)

Lemma bind_Ok {A B} (m : M A) (k : A -> M B) s a s' :
  m s = Ok a s' -> bind m k s = k a s'.
Proof. intros H. unfold bind. rewrite H. reflexivity. Qed.

Lemma read_spec n s xs :
  skipn (cursor s) (handle s) = xs ->
  read n s = Ok (firstn n xs) (set_cursor (cursor s + List.length (firstn n xs)) s).
Proof. intros H. unfold read. rewrite H. reflexivity. Qed.

Lemma skipn_app_exact {A} (xs ys : list A) : skipn (List.length xs) (xs ++ ys) = ys.
Proof. induction xs; simpl; auto. Qed.

Lemma firstn_app_exact {A} (xs ys : list A) : firstn (List.length xs) (xs ++ ys) = xs.
Proof. induction xs; simpl; f_equal; auto. Qed.

Lemma skipn_after_read s k xs ys :
  skipn (cursor s) (handle s) = (xs ++ ys)%list -> List.length xs = k ->
  skipn (cursor s + k) (handle s) = ys.
Proof.
  intros H Hk. rewrite Nat.add_comm, <- skipn_skipn, H, <- Hk.
  apply skipn_app_exact.
Qed.

(** ** Arithmetic of the header encoding *)

Lemma le_bytes_length n v : List.length (le_bytes n v) = n.
Proof. revert v; induction n; intros v; simpl; auto. Qed.

Lemma le_uint_le_bytes n v : 0 <= v < 256 ^ Z.of_nat n -> le_uint (le_bytes n v) = v.
Proof.
  revert v; induction n as [|n IH]; intros v Hv.
  - simpl in *. lia.
  - cbn [le_bytes le_uint]. rewrite IH.
    + pose proof (Z_div_mod_eq_full v 256). lia.
    + rewrite Nat2Z.inj_succ, Z.pow_succ_r in Hv by lia. split.
      * apply Z.div_pos; lia.
      * apply Z.div_lt_upper_bound; lia.
Qed.

Lemma header_code c x : 0 <= c -> 0 <= x < 64 -> Z.shiftr (c * 64 + x) 6 = c.
Proof.
  intros Hc Hx. rewrite Z.shiftr_div_pow2 by lia. change (2 ^ 6) with 64.
  rewrite Z.add_comm, Z.div_add by lia. rewrite Z.div_small by lia. lia.
Qed.

Lemma header_length c x : 0 <= c -> 0 <= x < 64 -> Z.land (c * 64 + x) 63 = x.
Proof.
  intros Hc Hx. change 63 with (Z.ones 6). rewrite Z.land_ones by lia.
  change (2 ^ 6) with 64. rewrite Z.add_comm, Z.mod_add by lia.
  apply Z.mod_small; lia.
Qed.

Lemma firstn_app_len {A} n (xs ys : list A) :
  List.length xs = n -> firstn n (xs ++ ys) = xs.
Proof. intros <-. apply firstn_app_exact. Qed.

Lemma after_after s n ts o n' ts' o' :
  after (after s n ts o) n' ts' o' = after s n' (ts ++ ts')%list (o ++ o')%list.
Proof. destruct s. unfold after. simpl. rewrite !app_assoc. reflexivity. Qed.

Lemma set_cursor_after s n ts o n' : set_cursor n' (after s n ts o) = after s n' ts o.
Proof. reflexivity. Qed.

Lemma after_id s : after s (cursor s) [] [] = s.
Proof. destruct s. unfold after. simpl. rewrite !app_nil_r. reflexivity. Qed.

Lemma set_cursor_is_after s n : set_cursor n s = after s n [] [].
Proof. destruct s. unfold after. simpl. rewrite !app_nil_r. reflexivity. Qed.

Lemma new_SWFTag_spec c l s :
  new_SWFTag c l s = Ok (tag_of c l) (after s (cursor s) [] (unknown_out c)).
Proof.
  unfold new_SWFTag, unknown_out, tag_of, bind, print, modify, ret.
  destruct (String.eqb _ _).
  - destruct s. unfold after. simpl. rewrite app_nil_r. reflexivity.
  - rewrite <- (after_id s) at 1. reflexivity.
Qed.

Lemma unpack_le_bytes n v s :
  0 <= v < 256 ^ Z.of_nat n -> unpack_le n (le_bytes n v) s = Ok v s.
Proof.
  intros Hv. unfold unpack_le. rewrite le_bytes_length, Nat.eqb_refl.
  rewrite le_uint_le_bytes by exact Hv. reflexivity.
Qed.

Lemma encode_header_length c l long :
  List.length (encode_header c l long) = if long then 6%nat else 2%nat.
Proof.
  unfold encode_header. destruct long; [rewrite length_app|]; rewrite !le_bytes_length; reflexivity.
Qed.

Lemma unpackTagHeader_spec r rest s :
  wf_header r ->
  skipn (cursor s) (handle s) = (encode_header (tr_code r) (tr_len r) (tr_long r) ++ rest)%list ->
  unpackTagHeader s =
  Ok (tag_of_rec r)
     (after s (cursor s + List.length (encode_header (tr_code r) (tr_len r) (tr_long r)))
        [] (unknown_out (tr_code r))).
Proof.
  destruct r as [c l long p]; unfold wf_header, tag_of_rec; simpl.
  intros (Hc & Hl & Hs) H. unfold unpackTagHeader.
  destruct long; unfold encode_header in *.
  - rewrite <- app_assoc in H.
    rewrite (bind_Ok _ _ _ _ _ (read_spec 2 s _ H)); cbv beta.
    rewrite (firstn_app_len 2) by apply le_bytes_length.
    rewrite (bind_Ok _ _ _ _ _ (unpack_le_bytes 2 (c * 64 + 63) _ ltac:(simpl; lia))).
    cbv beta. rewrite header_code, header_length by lia. rewrite Z.eqb_refl.
    assert (H4 : skipn (cursor (set_cursor (cursor s + 2) s))
                   (handle (set_cursor (cursor s + 2) s)) = (le_bytes 4 l ++ rest)%list).
    { simpl. apply (skipn_after_read s 2 (le_bytes 2 (c * 64 + 63))); auto. }
    cbv iota.
    assert (Hin : bind (read 4) (fun bs4 => unpack_le 4 bs4) (set_cursor (cursor s + 2) s)
                  = Ok l (set_cursor (cursor s + 2 + 4) s)).
    { rewrite (bind_Ok _ _ _ _ _ (read_spec 4 _ _ H4)). cbv beta.
      rewrite (firstn_app_len 4) by apply le_bytes_length.
      apply (unpack_le_bytes 4 l). simpl; lia. }
    rewrite (bind_Ok _ _ _ _ _ Hin).
    rewrite new_SWFTag_spec, set_cursor_is_after, after_after.
    rewrite length_app, !le_bytes_length. simpl.
    replace (cursor s + 2 + 4)%nat with (cursor s + 6)%nat by lia. reflexivity.
  - assert (Hl63 : l < 63) by auto.
    rewrite (bind_Ok _ _ _ _ _ (read_spec 2 s _ H)); cbv beta.
    rewrite (firstn_app_len 2) by apply le_bytes_length.
    rewrite (bind_Ok _ _ _ _ _ (unpack_le_bytes 2 (c * 64 + l) _ ltac:(simpl; lia))).
    cbv beta. rewrite header_code, header_length by lia.
    replace (l =? 63) with false by (symmetry; apply Z.eqb_neq; lia).
    unfold bind at 1, ret at 1.
    rewrite new_SWFTag_spec, set_cursor_is_after, after_after.
    rewrite le_bytes_length. reflexivity.
Qed.

Lemma cursor_after s n ts o : cursor (after s n ts o) = n.
Proof. reflexivity. Qed.

Lemma handle_after s n ts o : handle (after s n ts o) = handle s.
Proof. reflexivity. Qed.

Lemma set_tags_after s n ts o t :
  set_tags (tags (after s n ts o) ++ [t])%list (after s n ts o) = after s n (ts ++ [t])%list o.
Proof. destruct s. unfold after. simpl. rewrite app_assoc. reflexivity. Qed.

Lemma unpackTag_spec r rest s :
  wf_header r ->
  skipn (cursor s) (handle s) = (encode_header (tr_code r) (tr_len r) (tr_long r) ++ rest)%list ->
  unpackTag s =
  Ok (tag_of_rec r)
     (after s (cursor s + List.length (encode_header (tr_code r) (tr_len r) (tr_long r))
                 + List.length (firstn (Z.to_nat (tr_len r)) rest))
        [] (unknown_out (tr_code r))).
Proof.
  intros Hw H. unfold unpackTag.
  rewrite (bind_Ok _ _ _ _ _ (unpackTagHeader_spec r rest s Hw H)); cbv beta.
  assert (H' : skipn (cursor (after s (cursor s + List.length
                 (encode_header (tr_code r) (tr_len r) (tr_long r))) [] (unknown_out (tr_code r))))
                 (handle (after s (cursor s + List.length
                 (encode_header (tr_code r) (tr_len r) (tr_long r))) [] (unknown_out (tr_code r))))
               = rest).
  { rewrite cursor_after, handle_after. eapply skipn_after_read; eauto. }
  rewrite (bind_Ok _ _ _ _ _ (read_spec _ _ _ H')). reflexivity.
Qed.

Lemma encode_header_cons c l long :
  exists b0 b1 tl, encode_header c l long = b0 :: b1 :: tl.
Proof. unfold encode_header; destruct long; simpl; eauto. Qed.

Lemma after_end_out_spec prev s :
  (match prev with
   | Some t => if isEndTag t then print WarnTagsAfterEnd else ret tt
   | None => ret tt
   end) s = Ok tt (after s (cursor s) [] (after_end_out prev)).
Proof.
  destruct prev as [t|]; unfold after_end_out; [destruct (isEndTag t)|];
    try (unfold ret; rewrite after_id; reflexivity).
  destruct s. unfold after, print, modify. simpl. rewrite app_nil_r. reflexivity.
Qed.

Lemma seek_back s : (2 <= cursor s)%nat -> seek_cur (-2) s = Ok tt (set_cursor (cursor s - 2) s).
Proof.
  intros H. unfold seek_cur.
  replace (Z.of_nat (cursor s) + -2 <? 0) with false by (symmetry; apply Z.ltb_ge; lia).
  f_equal. f_equal. lia.
Qed.

Lemma encode_tag_length r : wf_tag r ->
  List.length (encode_tag r) =
  (List.length (encode_header (tr_code r) (tr_len r) (tr_long r)) + Z.to_nat (tr_len r))%nat.
Proof. intros [_ Hp]. unfold encode_tag. rewrite length_app, Hp. reflexivity. Qed.

(** One iteration of the loop over a tag whose header is complete; the
    payload read takes what there is of the declared length. *)
Lemma unpackTags_loop_step r rest fuel prev s :
  wf_header r ->
  skipn (cursor s) (handle s) = (encode_header (tr_code r) (tr_len r) (tr_long r) ++ rest)%list ->
  bind (read 2) (unpackTags_loop (S fuel) prev) s =
  bind (read 2) (unpackTags_loop fuel (Some (tag_of_rec r)))
    (after s (cursor s + List.length (encode_header (tr_code r) (tr_len r) (tr_long r))
                + List.length (firstn (Z.to_nat (tr_len r)) rest))
       [tag_of_rec r] (after_end_out prev ++ unknown_out (tr_code r))%list).
Proof.
  intros Hr H.
  set (hdr := encode_header (tr_code r) (tr_len r) (tr_long r)) in *.
  destruct (encode_header_cons (tr_code r) (tr_len r) (tr_long r)) as (b0 & b1 & tl & Hh).
  assert (Hf2 : firstn 2 (hdr ++ rest)%list = [b0; b1])
    by (unfold hdr; rewrite Hh; reflexivity).
  rewrite (bind_Ok _ _ _ _ _ (read_spec 2 s _ H)), Hf2.
  cbn [unpackTags_loop List.length].
  rewrite set_cursor_is_after.
  rewrite (bind_Ok _ _ _ _ _ (after_end_out_spec prev _)).
  rewrite cursor_after, after_after. cbn [app].
  rewrite (bind_Ok _ _ _ _ _
             (seek_back (after s (cursor s + 2) [] (after_end_out prev))
                ltac:(rewrite cursor_after; lia))).
  rewrite set_cursor_after, cursor_after.
  replace (cursor s + 2 - 2)%nat with (cursor s) by lia.
  assert (Ht : skipn (cursor (after s (cursor s) [] (after_end_out prev)))
                 (handle (after s (cursor s) [] (after_end_out prev))) = (hdr ++ rest)%list).
  { rewrite cursor_after, handle_after. exact H. }
  rewrite (bind_Ok _ _ _ _ _ (unpackTag_spec r _ _ Hr Ht)).
  rewrite cursor_after.
  unfold append_tag, modify, bind at 1.
  rewrite set_tags_after, !after_after. reflexivity.
Qed.

Lemma unpackTags_loop_prefix rs rest fuel prev s :
  Forall wf_tag rs -> (List.length rs <= fuel)%nat ->
  skipn (cursor s) (handle s) = (encode_tags rs ++ rest)%list ->
  bind (read 2) (unpackTags_loop fuel prev) s =
  bind (read 2) (unpackTags_loop (fuel - List.length rs) (last_prev prev rs))
    (after s (cursor s + List.length (encode_tags rs)) (map tag_of_rec rs) (tags_out prev rs)).
Proof.
  revert fuel prev s; induction rs as [|r rs IH]; intros fuel prev s Hw Hf H.
  - simpl. rewrite Nat.sub_0_r, Nat.add_0_r, after_id. reflexivity.
  - inversion Hw as [|? ? [Hr Hp] Hrs]; subst.
    destruct fuel as [|fuel]; [simpl in Hf; lia|]. simpl in Hf.
    unfold encode_tags in H; simpl in H; fold (encode_tags rs) in H.
    unfold encode_tag in H. rewrite <- !app_assoc in H.
    rewrite (unpackTags_loop_step r _ fuel prev s Hr H).
    rewrite (firstn_app_len (Z.to_nat (tr_len r))) by exact Hp.
    rewrite (IH fuel (Some (tag_of_rec r))); auto; [|lia|].
    + rewrite after_after. cbn [app map tags_out Nat.sub last_prev List.length].
      rewrite cursor_after, <- app_assoc.
      unfold encode_tags; simpl; fold (encode_tags rs).
      unfold encode_tag; rewrite !length_app, Hp. rewrite !Nat.add_assoc. reflexivity.
    + rewrite cursor_after, handle_after.
      rewrite <- Nat.add_assoc.
      apply (skipn_after_read s _
               (encode_header (tr_code r) (tr_len r) (tr_long r) ++ tr_payload r)%list).
      * rewrite <- app_assoc. exact H.
      * rewrite length_app, Hp. reflexivity.
Qed.

(** At the end of the file the loop stops without printing. *)
Lemma unpackTags_loop_end fuel prev s :
  skipn (cursor s) (handle s) = [] ->
  bind (read 2) (unpackTags_loop (S fuel) prev) s = Ok tt s.
Proof.
  intros H. rewrite (bind_Ok _ _ _ _ _ (read_spec 2 s _ H)). simpl.
  rewrite Nat.add_0_r. destruct s; reflexivity.
Qed.

Lemma encode_tags_length rs : Forall wf_tag rs ->
  (2 * List.length rs <= List.length (encode_tags rs))%nat.
Proof.
  induction 1 as [|r rs Hr _ IH]; simpl; [lia|].
  unfold encode_tags; simpl; fold (encode_tags rs).
  rewrite length_app. destruct (encode_header_cons (tr_code r) (tr_len r) (tr_long r))
    as (b0 & b1 & tl & Hh).
  unfold encode_tag. rewrite length_app, Hh. simpl. lia.
Qed.

Lemma skipn_length_le s xs :
  skipn (cursor s) (handle s) = xs -> (List.length xs <= List.length (handle s))%nat.
Proof. intros <-. rewrite length_skipn. lia. Qed.

(** [unpackTags] over a stream that starts with complete tags. *)
Lemma unpackTags_prefix rs rest s :
  Forall wf_tag rs ->
  skipn (cursor s) (handle s) = (encode_tags rs ++ rest)%list ->
  unpackTags s =
  bind (read 2)
    (unpackTags_loop (S (List.length (handle s)) - List.length rs) (last_prev None rs))
    (after s (cursor s + List.length (encode_tags rs)) (map tag_of_rec rs) (tags_out None rs)).
Proof.
  intros Hw H. unfold unpackTags, bind at 1, get.
  apply (unpackTags_loop_prefix rs rest); auto.
  apply skipn_length_le in H. rewrite length_app in H.
  pose proof (encode_tags_length rs Hw). lia.
Qed.

(** [unpackTags] over a stream of complete, well-formed tags. *)
Lemma unpackTags_encoded rs s :
  Forall wf_tag rs ->
  skipn (cursor s) (handle s) = encode_tags rs ->
  unpackTags s =
  Ok tt (after s (cursor s + List.length (encode_tags rs)) (map tag_of_rec rs) (tags_out None rs)).
Proof.
  intros Hw H. rewrite <- (app_nil_r (encode_tags rs)) in H.
  rewrite (unpackTags_prefix rs [] s Hw H).
  pose proof (encode_tags_length rs Hw) as Hl.
  pose proof (skipn_length_le _ _ H) as Hh. rewrite length_app in Hh. simpl in Hh.
  replace (S (List.length (handle s)) - List.length rs)%nat
    with (S (List.length (handle s) - List.length rs)) by lia.
  apply unpackTags_loop_end.
  rewrite cursor_after, handle_after.
  apply (skipn_after_read s _ (encode_tags rs) []); auto.
Qed.

(** ** The registry *)

Lemma dict_lookup_In d c v : dict_lookup d c = Some v -> In (c, v) d.
Proof.
  induction d as [|[k w] d IH]; simpl; [discriminate|].
  destruct (Z.eqb_spec c k); [intros H; inversion H; subst; auto|auto].
Qed.

Lemma lookup_End c : dict_lookup tagCodeTranslation c = Some "End" -> c = 0.
Proof.
  intros H. apply dict_lookup_In in H. simpl in H.
  repeat (destruct H as [H|H]; [inversion H; auto|]). contradiction.
Qed.

Lemma isEndTag_tag_of c l : isEndTag (tag_of c l) = (c =? 0).
Proof.
  unfold isEndTag, tag_of, dict_get. cbn [typeName].
  destruct (dict_lookup tagCodeTranslation c) as [v|] eqn:E.
  - destruct (String.eqb_spec v "End") as [->|Hv].
    + apply lookup_End in E. subst. reflexivity.
    + destruct (Z.eqb_spec c 0); [subst; simpl in E; inversion E; congruence|reflexivity].
  - destruct (Z.eqb_spec c 0); [subst; discriminate|reflexivity].
Qed.

(** ** Lemmas on what the loop prints *)

Lemma tags_out_app prev rs1 rs2 :
  tags_out prev (rs1 ++ rs2) = (tags_out prev rs1 ++ tags_out (last_prev prev rs1) rs2)%list.
Proof.
  revert prev; induction rs1 as [|r rs1 IH]; intros prev; simpl; auto.
  rewrite IH, !app_assoc. reflexivity.
Qed.

Lemma count_after_end_app o1 o2 :
  count_after_end (o1 ++ o2) = (count_after_end o1 + count_after_end o2)%nat.
Proof. unfold count_after_end. rewrite filter_app, length_app. reflexivity. Qed.

Lemma count_unknown_out c : count_after_end (unknown_out c) = O.
Proof. unfold unknown_out. destruct (String.eqb _ _); reflexivity. Qed.

Lemma count_tags_out prev rs :
  count_after_end (tags_out prev rs) = adjacent_end_pairs (opt_cons prev (map tag_of_rec rs)).
Proof.
  revert prev; induction rs as [|r rs IH]; intros prev.
  - destruct prev; reflexivity.
  - simpl tags_out. rewrite !count_after_end_app, count_unknown_out, IH.
    destruct prev as [p|]; simpl; [|reflexivity].
    unfold after_end_out. destruct (isEndTag p); reflexivity.
Qed.

Lemma tags_out_no_end prev rs :
  Forall (fun r => tr_code r <> 0) rs -> after_end_out prev = [] ->
  tags_out prev rs = unknowns_out rs.
Proof.
  intros Hc; revert prev; induction Hc as [|r rs Hr _ IH]; intros prev Hp; auto.
  simpl. rewrite Hp, IH; auto.
  unfold after_end_out, tag_of_rec. rewrite isEndTag_tag_of.
  destruct (Z.eqb_spec (tr_code r) 0); [contradiction|reflexivity].
Qed.

Lemma count_unknowns_out rs : count_after_end (unknowns_out rs) = O.
Proof.
  induction rs as [|r rs IH]; [reflexivity|].
  unfold unknowns_out; simpl; fold (unknowns_out rs).
  rewrite count_after_end_app, count_unknown_out, IH. reflexivity.
Qed.

Lemma last_prev_app prev rs1 rs2 :
  last_prev prev (rs1 ++ rs2) = last_prev (last_prev prev rs1) rs2.
Proof. revert prev; induction rs1; simpl; auto. Qed.

Lemma after_end_out_last prev rs :
  Forall (fun r => tr_code r <> 0) rs -> after_end_out prev = [] ->
  after_end_out (last_prev prev rs) = [].
Proof.
  intros Hc; revert prev; induction Hc as [|r rs Hr _ IH]; intros prev Hp; auto.
  simpl. apply IH. unfold after_end_out, tag_of_rec. rewrite isEndTag_tag_of.
  destruct (Z.eqb_spec (tr_code r) 0); [contradiction|reflexivity].
Qed.

Lemma encode_tags_nonempty rs : rs <> [] -> encode_tags rs <> [].
Proof.
  destruct rs as [|r rs]; [contradiction|]. intros _.
  unfold encode_tags; simpl. unfold encode_tag.
  destruct (encode_header_cons (tr_code r) (tr_len r) (tr_long r)) as (b0 & b1 & tl & ->).
  discriminate.
Qed.

Lemma cursor_at_end s xs :
  skipn (cursor s) (handle s) = xs -> xs <> [] ->
  (cursor s + List.length xs)%nat = List.length (handle s).
Proof.
  intros H Hne. pose proof (f_equal (@List.length Z) H) as Hl.
  rewrite length_skipn in Hl. destruct xs; [contradiction|]. simpl in *. lia.
Qed.

Lemma bind_Raise {A B} (m : M A) (k : A -> M B) s e :
  m s = Raise e -> bind m k s = Raise e.
Proof. intros H. unfold bind. rewrite H. reflexivity. Qed.

Lemma skipn_nth_cons {A} (d : A) n l :
  (n < List.length l)%nat -> skipn n l = nth n l d :: skipn (S n) l.
Proof.
  revert l; induction n as [|n IH]; intros [|a l] Hl; simpl in *; try lia; auto.
  apply IH. lia.
Qed.

Lemma ascii_of_byte_inj b n :
  b < 128 -> (0 < n < 256)%nat ->
  ascii_of_nat (Z.to_nat b) = ascii_of_nat n -> b = Z.of_nat n.
Proof.
  intros Hb Hn H. apply (f_equal nat_of_ascii) in H.
  rewrite !nat_ascii_embedding in H by lia. lia.
Qed.

Lemma string_of_bytes_3 b0 b1 b2 c0 c1 c2 :
  b0 < 128 -> b1 < 128 -> b2 < 128 ->
  string_of_bytes [b0; b1; b2] = string_of_bytes [Z.of_nat c0; Z.of_nat c1; Z.of_nat c2] ->
  (0 < c0 < 128)%nat -> (0 < c1 < 128)%nat -> (0 < c2 < 128)%nat ->
  [b0; b1; b2] = [Z.of_nat c0; Z.of_nat c1; Z.of_nat c2].
Proof.
  intros H0 H1 H2 H Hc0 Hc1 Hc2. simpl in H. rewrite !Nat2Z.id in H.
  injection H as E0 E1 E2.
  apply ascii_of_byte_inj in E0, E1, E2; try lia. subst. reflexivity.
Qed.

(** ** Claims *)

(** C1: a tag header whose inline length field is 0x3F is followed by a
    little-endian u32 that becomes the tag's length; the header takes
    2 + 4 = 6 bytes and the payload read the declared number of bytes
    (the documented example, length 1000, is the witness). *)
Theorem unpackTag_long_form (s : SWFFile) (c L : Z) (payload rest : list Z) :
  0 <= c < 1024 -> 0 <= L < 2 ^ 32 -> List.length payload = Z.to_nat L ->
  skipn (cursor s) (handle s) =
    (le_bytes 2 (c * 64 + 63) ++ le_bytes 4 L ++ payload ++ rest)%list ->
  unpackTag s =
  Ok (mkSWFTag c L (dict_get tagCodeTranslation c "!UNKNOWN!"))
     (after s (cursor s + 6 + Z.to_nat L) [] (unknown_out c)).
Proof.
  intros Hc HL Hp H.
  rewrite app_assoc in H.
  rewrite (unpackTag_spec (mkTagRec c L true payload) (payload ++ rest) s);
    [| unfold wf_header; simpl; repeat split; lia || discriminate | exact H].
  simpl tr_len. rewrite (firstn_app_len (Z.to_nat L)) by exact Hp.
  rewrite encode_header_length, Hp. reflexivity.
Qed.

(** C2: the bytes 0x43 0x02 (the u16 (9 << 6) | 3) and three payload bytes
    decode to a SetBackgroundColor tag (code 9) of length 3, and the cursor
    moves 2 + 3 = 5 bytes. *)
Theorem unpackTag_SetBackgroundColor (s : SWFFile) (a b c : Z) (rest : list Z) :
  skipn (cursor s) (handle s) = 67 :: 2 :: a :: b :: c :: rest ->
  unpackTag s = Ok (mkSWFTag 9 3 "SetBackgroundColor") (set_cursor (cursor s + 5) s).
Proof.
  intros H.
  rewrite (unpackTag_spec (mkTagRec 9 3 false [a; b; c]) (a :: b :: c :: rest) s);
    [| unfold wf_header; simpl; repeat split; lia | exact H].
  rewrite set_cursor_is_after.
  replace (cursor s + 5)%nat with (cursor s + 2 + 3)%nat by lia. reflexivity.
Qed.

(** C7: a code missing from [tagCodeTranslation] gets the type name
    "!UNKNOWN!" and only a printed warning, and a stream holding such a tag
    is parsed to the end with every tag appended in order. *)
Theorem unknown_tag_code_nonfatal (c : Z) :
  dict_lookup tagCodeTranslation c = None ->
  (forall l s, new_SWFTag c l s =
     Ok (mkSWFTag c l "!UNKNOWN!") (set_stdout (stdout s ++ [WarnUnknownTagCode c])%list s)) /\
  (forall s rs1 r rs2,
     tr_code r = c -> Forall wf_tag (rs1 ++ r :: rs2) ->
     skipn (cursor s) (handle s) = encode_tags (rs1 ++ r :: rs2) ->
     unpackTags s =
     Ok tt (after s (cursor s + List.length (encode_tags (rs1 ++ r :: rs2)))
              (map tag_of_rec rs1 ++ mkSWFTag c (tr_len r) "!UNKNOWN!" :: map tag_of_rec rs2)
              (tags_out None (rs1 ++ r :: rs2)))).
Proof.
  intros Hc. split.
  - intros l s. unfold new_SWFTag, dict_get. rewrite Hc. reflexivity.
  - intros s rs1 r rs2 Hr Hw H.
    rewrite (unpackTags_encoded _ s Hw H), map_app. simpl map.
    unfold tag_of_rec at 2, tag_of, dict_get. rewrite Hr, Hc. reflexivity.
Qed.

(** C6: a stream of complete tags ending with an End tag (code 0, and no
    earlier End tag) is parsed to the end of the file with no tags-after-End
    warning; with one more tag after the End tag, every tag is appended in
    order and the warning is printed exactly once. *)
Theorem end_tag_stream (rs : list TagRec) (e t : TagRec) :
  Forall wf_tag rs -> Forall (fun r => tr_code r <> 0) rs ->
  wf_tag e -> tr_code e = 0 -> wf_tag t ->
  (forall s, skipn (cursor s) (handle s) = encode_tags (rs ++ [e]) ->
     exists o, unpackTags s =
       Ok tt (after s (List.length (handle s)) (map tag_of_rec (rs ++ [e])) o) /\
     count_after_end o = O) /\
  (forall s, skipn (cursor s) (handle s) = encode_tags (rs ++ [e; t]) ->
     exists o, unpackTags s =
       Ok tt (after s (List.length (handle s)) (map tag_of_rec (rs ++ [e; t])) o) /\
     count_after_end o = 1%nat).
Proof.
  intros Hrs Hc He He0 Ht.
  assert (Hl : after_end_out (last_prev None rs) = []) by (apply after_end_out_last; auto).
  split; intros s H.
  - exists (tags_out None (rs ++ [e])). split.
    + rewrite (unpackTags_encoded (rs ++ [e]) s); [|apply Forall_app; auto|exact H].
      rewrite (cursor_at_end s _ H); [reflexivity|].
      apply encode_tags_nonempty. intros Hn; apply app_eq_nil in Hn as [_ Hn]; discriminate.
    + rewrite tags_out_app, (tags_out_no_end None rs Hc eq_refl), count_after_end_app,
        count_unknowns_out. simpl. rewrite Hl, He0. reflexivity.
  - exists (tags_out None (rs ++ [e; t])). split.
    + rewrite (unpackTags_encoded (rs ++ [e; t]) s); [|apply Forall_app; auto|exact H].
      rewrite (cursor_at_end s _ H); [reflexivity|].
      apply encode_tags_nonempty. intros Hn; apply app_eq_nil in Hn as [_ Hn]; discriminate.
    + rewrite tags_out_app, (tags_out_no_end None rs Hc eq_refl), count_after_end_app,
        count_unknowns_out. simpl tags_out. rewrite Hl.
      unfold tag_of_rec at 1. rewrite isEndTag_tag_of, He0.
      rewrite !count_after_end_app, !count_unknown_out. reflexivity.
Qed.

(** C9: after an End tag, the tags-after-End warning is printed once, just
    before the first following tag, when none of the following tags is an End
    tag; every following tag is still appended in order.  In general, the
    warnings printed while parsing a stream are as many as the places where a
    tag directly follows an End tag. *)
Theorem tags_after_end_once :
  (forall s rs e rest,
     Forall wf_tag (rs ++ e :: rest) -> tr_code e = 0 -> rest <> [] ->
     Forall (fun r => tr_code r <> 0) rest ->
     skipn (cursor s) (handle s) = encode_tags (rs ++ e :: rest) ->
     unpackTags s =
     Ok tt (after s (cursor s + List.length (encode_tags (rs ++ e :: rest)))
              (map tag_of_rec (rs ++ e :: rest))
              (tags_out None (rs ++ [e]) ++ WarnTagsAfterEnd :: unknowns_out rest))) /\
  (forall s rs,
     Forall wf_tag rs -> skipn (cursor s) (handle s) = encode_tags rs ->
     exists s', unpackTags s = Ok tt s' /\
       tags s' = (tags s ++ map tag_of_rec rs)%list /\
       count_after_end (stdout s') =
         (count_after_end (stdout s) + adjacent_end_pairs (map tag_of_rec rs))%nat).
Proof.
  split.
  - intros s rs e rest Hw He0 Hne Hc H.
    rewrite (unpackTags_encoded _ s Hw H). f_equal. f_equal.
    replace (rs ++ e :: rest)%list with ((rs ++ [e]) ++ rest)%list
      by (rewrite <- app_assoc; reflexivity).
    rewrite tags_out_app, last_prev_app. simpl last_prev. f_equal.
    destruct rest as [|r rest]; [contradiction|]. inversion Hc as [|? ? Hr Hc']; subst.
    cbn [tags_out]. unfold after_end_out at 1. unfold tag_of_rec at 1.
    rewrite isEndTag_tag_of, He0. cbn [app Z.eqb].
    unfold unknowns_out; simpl; fold (unknowns_out rest).
    rewrite (tags_out_no_end _ rest Hc'); [reflexivity|].
    unfold after_end_out, tag_of_rec. rewrite isEndTag_tag_of.
    destruct (Z.eqb_spec (tr_code r) 0); [contradiction|reflexivity].
  - intros s rs Hw H. eexists. split; [exact (unpackTags_encoded rs s Hw H)|].
    split; [reflexivity|]. cbn [stdout after set_stdout].
    rewrite count_after_end_app, count_tags_out. reflexivity.
Qed.

(** C8 (amended): a tag whose declared payload length is larger than what
    is left of the file is not an error: the payload read returns the rest of
    the file, the tag is appended after the earlier tags (unchanged), and the
    loop ends normally at the end of the file. *)
Theorem truncated_payload_accepted (s : SWFFile) (rs : list TagRec) (r : TagRec) (p : list Z) :
  Forall wf_tag rs -> wf_header r -> (List.length p < Z.to_nat (tr_len r))%nat ->
  skipn (cursor s) (handle s) =
    (encode_tags rs ++ encode_header (tr_code r) (tr_len r) (tr_long r) ++ p)%list ->
  unpackTags s =
  Ok tt (after s (List.length (handle s)) (map tag_of_rec rs ++ [tag_of_rec r])%list
           (tags_out None (rs ++ [r]))).
Proof.
  intros Hw Hr Hp H.
  set (hdr := encode_header (tr_code r) (tr_len r) (tr_long r)) in *.
  assert (Hhl : (2 <= List.length hdr)%nat)
    by (unfold hdr; rewrite encode_header_length; destruct (tr_long r); lia).
  pose proof (encode_tags_length rs Hw) as Hel.
  pose proof (skipn_length_le _ _ H) as Hh. rewrite !length_app in Hh.
  pose proof (cursor_at_end s _ H) as Hend.
  rewrite !length_app in Hend.
  assert (Hend' : (cursor s + (List.length (encode_tags rs) + List.length hdr + List.length p))%nat
                  = List.length (handle s)).
  { rewrite <- Hend; [lia|]. destruct hdr; simpl in Hhl; [lia|]. destruct (encode_tags rs); discriminate. }
  rewrite (unpackTags_prefix rs (hdr ++ p) s Hw H).
  replace (S (List.length (handle s)) - List.length rs)%nat
    with (S (S (List.length (handle s) - List.length rs - 1))) by lia.
  rewrite (unpackTags_loop_step r p _ (last_prev None rs) _ Hr).
  2:{ rewrite cursor_after, handle_after. apply (skipn_after_read s _ (encode_tags rs)); auto. }
  rewrite (firstn_all2 p) by lia.
  rewrite unpackTags_loop_end.
  - rewrite !after_after, tags_out_app. cbn [tags_out last_prev]. rewrite !app_nil_r.
    rewrite cursor_after. fold hdr. rewrite <- Hend'.
    replace (cursor s + List.length (encode_tags rs) + List.length hdr + List.length p)%nat
      with (cursor s + (List.length (encode_tags rs) + List.length hdr + List.length p))%nat
      by lia.
    reflexivity.
  - rewrite !cursor_after, handle_after. fold hdr.
    replace (cursor s + List.length (encode_tags rs) + List.length hdr + List.length p)%nat
      with (cursor s + List.length (encode_tags rs ++ hdr ++ p))%nat
      by (rewrite !length_app; lia).
    apply (skipn_after_read s _ (encode_tags rs ++ hdr ++ p)%list []); [rewrite app_nil_r; exact H|reflexivity].
Qed.

(** C8: the tag 0x45 0x00 (code 1, declared length 5) followed by only two
    payload bytes does not make the parse fail. *)
Lemma truncated_payload_counterexample :
  exists s', unpackTags (open_file [69; 0; 1; 2]) = Ok tt s' /\
             tags s' = [mkSWFTag 1 5 "ShowFrame"].
Proof. eexists. split; [reflexivity|reflexivity]. Qed.

(** C10 (amended): when one byte [x] is left at a tag boundary (with at
    least one byte before it in the file), the loop seeks back two bytes and
    decodes a header from the last byte already consumed and [x].  If the
    inline length field of that header is not 0x3F, the spurious tag is
    appended and the loop ends normally; if it is 0x3F, the u32 length read
    finds no bytes and [struct.unpack] raises. *)
Theorem one_trailing_byte (s : SWFFile) (rs : list TagRec) (x : Z) :
  Forall wf_tag rs -> (1 <= cursor s + List.length (encode_tags rs))%nat ->
  skipn (cursor s) (handle s) = (encode_tags rs ++ [x])%list ->
  let k := (cursor s + List.length (encode_tags rs))%nat in
  let d := nth (k - 1) (handle s) 0 + 256 * x in
  (Z.land d 63 <> 63 ->
   unpackTags s =
   Ok tt (after s (List.length (handle s))
            (map tag_of_rec rs ++ [tag_of (Z.shiftr d 6) (Z.land d 63)])%list
            (tags_out None rs ++ after_end_out (last_prev None rs) ++
             unknown_out (Z.shiftr d 6))%list)) /\
  (Z.land d 63 = 63 -> unpackTags s = Raise StructError).
Proof.
  intros Hw Hk H k d.
  pose proof (encode_tags_length rs Hw) as Hel.
  pose proof (cursor_at_end s _ H) as Hend. rewrite length_app in Hend. simpl in Hend.
  assert (Hend' : (k + 1)%nat = List.length (handle s)).
  { unfold k. rewrite <- Hend; [lia|]. destruct (encode_tags rs); discriminate. }
  set (s1 := after s k (map tag_of_rec rs) (tags_out None rs)).
  set (o1 := after_end_out (last_prev None rs)).
  set (s3 := after s1 (k - 1) [] o1).
  set (f := (List.length (handle s) - List.length rs - 1)%nat).
  assert (Hx : skipn (cursor s1) (handle s1) = [x]).
  { unfold s1. rewrite cursor_after, handle_after. unfold k.
    apply (skipn_after_read s _ (encode_tags rs)); auto. }
  assert (Hpre : unpackTags s =
            (tag <- unpackTag ;; _ <- append_tag tag ;; sample <- read 2 ;;
             unpackTags_loop (S f) (Some tag) sample) s3).
  { rewrite (unpackTags_prefix rs [x] s Hw H). fold k. fold s1.
    replace (S (List.length (handle s)) - List.length rs)%nat with (S (S f)) by (unfold f; lia).
    rewrite (bind_Ok _ _ _ _ _ (read_spec 2 s1 _ Hx)). cbn [firstn List.length unpackTags_loop].
    rewrite set_cursor_is_after.
    rewrite (bind_Ok _ _ _ _ _ (after_end_out_spec _ _)).
    rewrite cursor_after, after_after. cbn [app].
    rewrite (bind_Ok _ _ _ _ _
               (seek_back (after s1 (cursor s1 + 1) [] o1) ltac:(rewrite cursor_after; unfold s1; rewrite cursor_after; lia))).
    rewrite set_cursor_after, cursor_after. unfold s1 at 2. rewrite cursor_after.
    replace (k + 1 - 2)%nat with (k - 1)%nat by lia. reflexivity. }
  assert (Hy : skipn (cursor s3) (handle s3) = [nth (k - 1) (handle s) 0; x]).
  { unfold s3, s1. rewrite cursor_after, !handle_after.
    rewrite (skipn_nth_cons 0) by lia. f_equal.
    replace (S (k - 1)) with k by lia. unfold s1 in Hx. rewrite cursor_after, handle_after in Hx.
    exact Hx. }
  assert (Hhd : forall (k' : Z -> M SWFTag),
            (bs <- read 2 ;; data <- unpack_le 2 bs ;; k' data) s3 =
            k' d (set_cursor (k + 1) s3)).
  { intros k'. rewrite (bind_Ok _ _ _ _ _ (read_spec 2 s3 _ Hy)).
    change (firstn 2 [nth (k - 1) (handle s) 0; x]) with [nth (k - 1) (handle s) 0; x].
    change (List.length [nth (k - 1) (handle s) 0; x]) with 2%nat.
    unfold s3 at 1. rewrite cursor_after.
    replace (k - 1 + 2)%nat with (k + 1)%nat by lia.
    unfold unpack_le, bind at 1, ret.
    change (Nat.eqb (List.length [nth (k - 1) (handle s) 0; x]) 2) with true. cbv iota beta.
    replace (le_uint [nth (k - 1) (handle s) 0; x]) with d by (unfold d; cbn [le_uint]; lia).
    reflexivity. }
  assert (Hz : skipn (k + 1) (handle s) = []).
  { rewrite Hend'. apply skipn_all. }
  split; intros Hd.
  - assert (Hh : unpackTagHeader s3 =
                 Ok (tag_of (Z.shiftr d 6) (Z.land d 63))
                    (after (set_cursor (k + 1) s3) (k + 1) [] (unknown_out (Z.shiftr d 6)))).
    { unfold unpackTagHeader. rewrite Hhd. cbv beta zeta.
      replace (Z.land d 63 =? 63) with false by (symmetry; apply Z.eqb_neq; exact Hd).
      unfold bind at 1, ret at 1. rewrite new_SWFTag_spec. reflexivity. }
    rewrite set_cursor_is_after, !after_after in Hh. cbn [app] in Hh.
    assert (Hs : forall ts o, skipn (cursor (after s3 (k + 1) ts o)) (handle (after s3 (k + 1) ts o)) = []).
    { intros. rewrite cursor_after. unfold s3, s1. rewrite !handle_after. exact Hz. }
    assert (Ht : unpackTag s3 =
                 Ok (tag_of (Z.shiftr d 6) (Z.land d 63))
                    (after s3 (k + 1) [] (unknown_out (Z.shiftr d 6)))).
    { unfold unpackTag. rewrite (bind_Ok _ _ _ _ _ Hh).
      rewrite (bind_Ok _ _ _ _ _ (read_spec _ _ _ (Hs _ _))).
      rewrite set_cursor_after, firstn_nil. simpl List.length. rewrite Nat.add_0_r.
      reflexivity. }
    rewrite Hpre, (bind_Ok _ _ _ _ _ Ht).
    unfold append_tag, modify, bind at 1.
    rewrite set_tags_after.
    rewrite (unpackTags_loop_end f _ _ (Hs _ _)).
    unfold s3, s1. rewrite !after_after, <- Hend'. cbn [app].
    rewrite !app_assoc. reflexivity.
  - assert (Hh : unpackTagHeader s3 = Raise StructError).
    { unfold unpackTagHeader. rewrite Hhd. cbv beta zeta.
      rewrite Hd, Z.eqb_refl.
      apply bind_Raise. cbv iota.
      assert (Hs : skipn (cursor (set_cursor (k + 1) s3)) (handle (set_cursor (k + 1) s3)) = []).
      { unfold s3, s1. simpl. exact Hz. }
      rewrite (bind_Ok _ _ _ _ _ (read_spec _ _ _ Hs)). reflexivity. }
    rewrite Hpre. unfold unpackTag. apply bind_Raise, bind_Raise. exact Hh.
Qed.

(** C3: with an 8-byte header, the signature "FWS" gives compression
    "none", "CWS" gives "zlib" and "ZWS" gives "lzma"; any other signature
    makes [unpackHeader1] raise, never a default compression.  For an ASCII
    signature the exception is the unknown-signature
    [SWFFileUnpackingException]; for a signature with a byte of 128 or more
    it is the [UnicodeDecodeError] of [signature.decode('ascii')], raised
    before the unknown-signature branch is reached. *)
Theorem unpackHeader1_signature (s : SWFFile) (hdr rest : list Z) :
  List.length hdr = 8%nat -> skipn (cursor s) (handle s) = (hdr ++ rest)%list ->
  match unpackHeader1 s with
  | Ok _ s' =>
      (firstn 3 hdr = [70; 87; 83] /\ compression s' = Some "none" /\ signature s' = Some "FWS") \/
      (firstn 3 hdr = [67; 87; 83] /\ compression s' = Some "zlib" /\ signature s' = Some "CWS") \/
      (firstn 3 hdr = [90; 87; 83] /\ compression s' = Some "lzma" /\ signature s' = Some "ZWS")
  | Raise e =>
      ~ In (firstn 3 hdr) [[70; 87; 83]; [67; 87; 83]; [90; 87; 83]] /\
      (forallb (fun b => (0 <=? b) && (b <? 128)) (firstn 3 hdr) = true ->
       exists msg, e = SWFFileUnpackingException msg) /\
      (forallb (fun b => b <? 128) (firstn 3 hdr) = false -> e = UnicodeDecodeError)
  end.
Proof.
  intros Hl H.
  destruct hdr as [|h0 [|h1 [|h2 [|h3 [|h4 [|h5 [|h6 [|h7 [|]]]]]]]]]; simpl in Hl;
    try discriminate.
  unfold unpackHeader1.
  rewrite (bind_Ok _ _ _ _ _ (read_spec 8 s _ H)).
  rewrite (firstn_app_len 8) by reflexivity.
  change (negb (Nat.eqb (List.length [h0; h1; h2; h3; h4; h5; h6; h7]) 8)) with false.
  cbv iota. unfold bind at 1, modify at 1.
  change (firstn 3 [h0; h1; h2; h3; h4; h5; h6; h7]) with [h0; h1; h2].
  unfold decode_ascii. destruct (forallb (fun b => b <? 128) [h0; h1; h2]) eqn:Ha.
  - simpl in Ha. rewrite !andb_true_iff, !Z.ltb_lt in Ha. destruct Ha as (Ha0 & Ha1 & Ha2 & _).
    unfold bind at 1, ret at 1.
    generalize (set_version_fileLength (nth 3 [h0; h1; h2; h3; h4; h5; h6; h7] 0)
                  (le_uint (skipn 4 [h0; h1; h2; h3; h4; h5; h6; h7]))
                  (set_cursor (cursor s + List.length [h0; h1; h2; h3; h4; h5; h6; h7]) s)).
    intros st. remember (string_of_bytes [h0; h1; h2]) as sig eqn:Hsig.
    assert (Hinj : forall c0 c1 c2, (0 < c0 < 128)%nat -> (0 < c1 < 128)%nat -> (0 < c2 < 128)%nat ->
                   sig = string_of_bytes [Z.of_nat c0; Z.of_nat c1; Z.of_nat c2] ->
                   [h0; h1; h2] = [Z.of_nat c0; Z.of_nat c1; Z.of_nat c2]).
    { intros c0 c1 c2 ? ? ? E. subst sig. apply string_of_bytes_3; auto. }
    destruct (String.eqb_spec sig "FWS") as [E|N1];
      [|destruct (String.eqb_spec sig "CWS") as [E|N2];
        [|destruct (String.eqb_spec sig "ZWS") as [E|N3]]].
    + left. split; [apply (Hinj 70 87 83)%nat; auto; lia|].
      split; [reflexivity|]. simpl. rewrite E. reflexivity.
    + right; left. split; [apply (Hinj 67 87 83)%nat; auto; lia|].
      split; [reflexivity|]. simpl. rewrite E. reflexivity.
    + right; right. split; [apply (Hinj 90 87 83)%nat; auto; lia|].
      split; [reflexivity|]. simpl. rewrite E. reflexivity.
    + unfold raise. split; [|split; [intros _; eexists; reflexivity|]].
      2: { intros Hf. discriminate Hf. }
      intros Hin. simpl in Hin.
      destruct Hin as [E|[E|[E|[]]]]; injection E as E0 E1 E2; subst;
        [apply N1|apply N2|apply N3]; reflexivity.
  - unfold raise. split; [|split; [|intros _; reflexivity]].
    + intros Hin. simpl in Hin.
      destruct Hin as [E|[E|[E|[]]]]; injection E as E0 E1 E2; subst; discriminate Ha.
    + intros Hb. simpl in Hb, Ha.
      rewrite !andb_true_iff, !Z.leb_le, !Z.ltb_lt in Hb.
      destruct (h0 <? 128) eqn:E0; [|apply Z.ltb_ge in E0; lia].
      destruct (h1 <? 128) eqn:E1; [|apply Z.ltb_ge in E1; lia].
      destruct (h2 <? 128) eqn:E2; [|apply Z.ltb_ge in E2; lia]. discriminate.
Qed.

Lemma unpackRect_step (s : SWFFile) (b : Z) (rest : list Z) :
  skipn (cursor s) (handle s) = b :: rest ->
  let w := Z.land (Z.shiftr b 3) 31 in
  let more := firstn (Z.to_nat (py_ceil_div (w * 4 - 3) 8)) rest in
  unpackRect s =
  (v <- bitstruct_unpack_rect w ([b] ++ more)%list ;;
   let '(xmin, xmax, ymin, ymax) := v in ret (mkSWFRect xmin xmax ymin ymax))
    (set_cursor (cursor s + 1 + List.length more) s).
Proof.
  intros H w more. unfold unpackRect.
  rewrite (bind_Ok _ _ _ _ _ (read_spec 1 s _ H)). cbv beta.
  change (firstn 1 (b :: rest)) with [b].
  assert (Hr : skipn (cursor (set_cursor (cursor s + 1) s)) (handle (set_cursor (cursor s + 1) s)) = rest).
  { apply (skipn_after_read s 1 [b] rest H eq_refl). }
  unfold bind at 1, bitstruct_unpack_u5.
  change (8 * Z.of_nat (List.length [b]) <? 5) with false. cbv iota beta.
  unfold ret at 1. change (field_u [b] 0 5) with w.
  rewrite (bind_Ok _ _ _ _ _ (read_spec _ _ _ Hr)). cbv beta zeta.
  fold more. destruct s. reflexivity.
Qed.

Lemma rect_width_bound (b : Z) : 0 <= Z.land (Z.shiftr b 3) 31 <= 31.
Proof.
  rewrite (Z.land_ones _ 5) by lia.
  pose proof (Z.mod_pos_bound (Z.shiftr b 3) (2 ^ 5) ltac:(lia)). lia.
Qed.

(** C4: whatever width [w] (0..31) the first 5 bits declare, a successful
    [unpackRect] leaves the cursor ceil((5 + 4 w) / 8) bytes further, on a
    byte boundary, ready for the byte-aligned reads of [unpackHeader2]; for
    a nonzero width with that many bytes left, [unpackRect] does succeed;
    but for the width 0 it always fails: the format 'p5s0s0s0s0' is refused
    by bitstruct (see [bitstruct_unpack_rect]), so a zero-width rect is
    never decoded. *)
Theorem unpackRect_consumes (s : SWFFile) (b : Z) (rest : list Z) :
  skipn (cursor s) (handle s) = b :: rest ->
  let w := Z.land (Z.shiftr b 3) 31 in
  0 <= w <= 31 /\
  (forall r s', unpackRect s = Ok r s' ->
     Z.of_nat (cursor s') = Z.of_nat (cursor s) + (5 + 4 * w + 7) / 8 /\
     handle s' = handle s) /\
  (w <> 0 -> (5 + 4 * w + 7) / 8 <= 1 + Z.of_nat (List.length rest) ->
   exists r, unpackRect s = Ok r (set_cursor (cursor s + Z.to_nat ((5 + 4 * w + 7) / 8)) s)) /\
  (w = 0 -> unpackRect s = Raise BitstructError).
Proof.
  intros H w.
  pose proof (rect_width_bound b) as Hw. fold w in Hw.
  pose proof (unpackRect_step s b rest H) as Hs. cbv zeta in Hs. fold w in Hs.
  set (n := Z.to_nat (py_ceil_div (w * 4 - 3) 8)) in Hs.
  split; [exact Hw|]. split; [|split].
  - intros r s' Hok. rewrite Hs in Hok.
    unfold bind at 1, bitstruct_unpack_rect in Hok.
    destruct (w =? 0); [discriminate|].
    set (k := List.length (firstn n rest)) in Hok.
    assert (Hk : (k <= n)%nat) by (unfold k; rewrite length_firstn; lia).
    destruct (8 * Z.of_nat (List.length ([b] ++ firstn n rest)) <? 5 + 4 * w) eqn:Hlen;
      [discriminate|].
    apply Z.ltb_ge in Hlen. rewrite length_app in Hlen. fold k in Hlen. simpl List.length in Hlen.
    unfold ret in Hok. cbv beta zeta iota in Hok.
    injection Hok as _ <-. split; [|reflexivity].
    simpl cursor. unfold n, py_ceil_div in Hk. clearbody k n w. clear Hs H.
    Z.to_euclidean_division_equations. lia.
  - intros Hw0 Hrest. rewrite Hs.
    assert (Hn : Z.of_nat n = (5 + 4 * w + 7) / 8 - 1).
    { unfold n, py_ceil_div. clearbody w. clear Hs H.
      Z.to_euclidean_division_equations. lia. }
    assert (Hk : List.length (firstn n rest) = n).
    { rewrite length_firstn. lia. }
    unfold bind at 1, bitstruct_unpack_rect.
    apply Z.eqb_neq in Hw0. rewrite Hw0.
    rewrite length_app, Hk. change (List.length [b]) with 1%nat.
    replace (8 * Z.of_nat (1 + n) <? 5 + 4 * w) with false
      by (symmetry; apply Z.ltb_ge; clearbody w n; Z.to_euclidean_division_equations; lia).
    unfold ret. eexists. do 2 f_equal. clearbody n w. lia.
  - intros Hw0. rewrite Hs. unfold bind at 1, bitstruct_unpack_rect.
    rewrite Hw0. reflexivity.
Qed.

(** C5 (amended): the hand-built rect of width 15 with fields -100, 400, 0
    and 1000 takes 5 + 4 * 15 = 65 bits, so [unpackRect] decodes exactly
    those values and moves the cursor ceil(65 / 8) = 9 bytes. *)
Theorem unpackRect_width15 (s : SWFFile) (rest : list Z) :
  skipn (cursor s) (handle s) = ([127; 249; 192; 50; 0; 0; 1; 244; 0] ++ rest)%list ->
  unpackRect s = Ok (mkSWFRect (-100) 400 0 1000) (set_cursor (cursor s + 9) s).
Proof.
  intros H. unfold unpackRect.
  rewrite (bind_Ok _ _ _ _ _ (read_spec 1 s _ H)). cbv beta.
  change (firstn 1 ([127; 249; 192; 50; 0; 0; 1; 244; 0] ++ rest)%list) with [127].
  unfold bind at 1. cbv beta iota.
  assert (Hr : skipn (cursor (set_cursor (cursor s + 1) s)) (handle (set_cursor (cursor s + 1) s))
               = ([249; 192; 50; 0; 0; 1; 244; 0] ++ rest)%list).
  { apply (skipn_after_read s 1 [127] _ H eq_refl). }
  change (bitstruct_unpack_u5 [127]) with (@ret Z 15).
  unfold ret at 1.
  change (Z.to_nat (py_ceil_div (15 * 4 - 3) 8)) with 8%nat.
  rewrite (bind_Ok _ _ _ _ _ (read_spec 8 _ _ Hr)). cbv beta zeta.
  rewrite (firstn_app_len 8) by reflexivity.
  change (bitstruct_unpack_rect 15 ([127] ++ [249; 192; 50; 0; 0; 1; 244; 0])%list)
    with (@ret (Z * Z * Z * Z) (-100, 400, 0, 1000)).
  unfold bind, ret. destruct s; unfold set_cursor; simpl.
  do 2 f_equal. lia.
Qed.

(** C5: the same bytes, read from the start of a file, leave the cursor at
    9 and not at 8. *)
Lemma unpackRect_width15_counterexample :
  exists r s', unpackRect (open_file [127; 249; 192; 50; 0; 0; 1; 244; 0]) = Ok r s' /\
    (xmin r, xmax r, ymin r, ymax r) = (-100, 400, 0, 1000) /\
    cursor s' = 9%nat /\ cursor s' <> 8%nat.
Proof. do 2 eexists. split; [reflexivity|]. split; [reflexivity|]. split; [reflexivity|discriminate]. Qed.

(** C10: the tag 0x41 0x00 (code 1, length 1) with payload 0xFF, then one
    byte 0x00: the spurious header is 0x00FF, whose inline length is 0x3F, and
    the u32 read after it finds no bytes, so the parse raises. *)
Lemma one_trailing_byte_counterexample :
  unpackTags (open_file [65; 0; 255; 0]) = Raise StructError.
Proof. reflexivity. Qed.

(** ** Instances of the claims' hypotheses *)

Lemma unpackTag_long_form_witness :
  exists s', unpackTag (open_file (le_bytes 2 (9 * 64 + 63) ++ le_bytes 4 1000 ++ repeat 0 1000%nat)%list)
             = Ok (mkSWFTag 9 1000 "SetBackgroundColor") s' /\ cursor s' = 1006%nat.
Proof.
  eexists. split.
  - apply (unpackTag_long_form _ 9 1000 (repeat 0 1000%nat) []).
    + lia.
    + lia.
    + reflexivity.
    + vm_compute. reflexivity.
  - reflexivity.
Defined.

Lemma unpackTag_SetBackgroundColor_witness :
  unpackTag (open_file [67; 2; 1; 2; 3]) =
  Ok (mkSWFTag 9 3 "SetBackgroundColor") (set_cursor 5 (open_file [67; 2; 1; 2; 3])).
Proof. exact (unpackTag_SetBackgroundColor (open_file [67; 2; 1; 2; 3]) 1 2 3 [] eq_refl). Defined.

Lemma unknown_tag_code_nonfatal_witness :
  dict_lookup tagCodeTranslation 99 = None /\
  exists s', unpackTags (open_file [192; 24; 64; 0]) = Ok tt s' /\
    tags s' = [mkSWFTag 99 0 "!UNKNOWN!"; mkSWFTag 1 0 "ShowFrame"].
Proof.
  split; [reflexivity|].
  eexists. split.
  - apply (proj2 (unknown_tag_code_nonfatal 99 eq_refl) (open_file [192; 24; 64; 0])
             [] (mkTagRec 99 0 false []) [mkTagRec 1 0 false []]).
    + reflexivity.
    + repeat constructor; cbn; intros; try lia.
    + reflexivity.
  - reflexivity.
Defined.

Lemma end_tag_stream_witness :
  exists o, unpackTags (open_file [64; 0; 0; 0; 64; 0]) =
    Ok tt (after (open_file [64; 0; 0; 0; 64; 0]) 6
             [mkSWFTag 1 0 "ShowFrame"; mkSWFTag 0 0 "End"; mkSWFTag 1 0 "ShowFrame"] o) /\
    count_after_end o = 1%nat.
Proof.
  refine (proj2 (end_tag_stream [mkTagRec 1 0 false []] (mkTagRec 0 0 false [])
                   (mkTagRec 1 0 false []) _ _ _ _ _) (open_file [64; 0; 0; 0; 64; 0]) eq_refl).
  - repeat constructor; cbn; intros; try lia.
  - repeat constructor; cbn; intros Hc; discriminate Hc.
  - repeat constructor; cbn; intros; try lia.
  - reflexivity.
  - repeat constructor; cbn; intros; try lia.
Defined.

Lemma tags_after_end_once_witness :
  exists s', unpackTags (open_file [0; 0; 64; 0; 64; 0]) = Ok tt s' /\
    tags s' = [mkSWFTag 0 0 "End"; mkSWFTag 1 0 "ShowFrame"; mkSWFTag 1 0 "ShowFrame"] /\
    count_after_end (stdout s') = 1%nat.
Proof.
  destruct (proj2 tags_after_end_once (open_file [0; 0; 64; 0; 64; 0])
              [mkTagRec 0 0 false []; mkTagRec 1 0 false []; mkTagRec 1 0 false []])
    as [s' [H1 [H2 H3]]].
  - repeat constructor; cbn; intros; try lia.
  - reflexivity.
  - exists s'. split; [exact H1|]. split; [exact H2|]. rewrite H3. reflexivity.
Defined.

Lemma truncated_payload_accepted_witness :
  exists s', unpackTags (open_file [69; 0; 1; 2]) = Ok tt s' /\
    tags s' = [mkSWFTag 1 5 "ShowFrame"] /\ cursor s' = 4%nat.
Proof.
  eexists. split.
  - apply (truncated_payload_accepted (open_file [69; 0; 1; 2]) [] (mkTagRec 1 5 false []) [1; 2]).
    + constructor.
    + repeat constructor; cbn; intros; try lia.
    + cbn. lia.
    + reflexivity.
  - split; reflexivity.
Defined.

Lemma one_trailing_byte_witness :
  exists s', unpackTags (open_file [65; 0; 10; 7]) = Ok tt s' /\
    tags s' = [mkSWFTag 1 1 "ShowFrame"; mkSWFTag 28 10 "RemoveObject2"].
Proof.
  eexists. split.
  - apply (proj1 (one_trailing_byte (open_file [65; 0; 10; 7]) [mkTagRec 1 1 false [10]] 7
                    ltac:(repeat constructor; cbn; intros; try lia) ltac:(cbn; lia) eq_refl)).
    vm_compute. intros Hc. discriminate Hc.
  - reflexivity.
Defined.

Lemma unpackHeader1_signature_witness :
  (exists s', unpackHeader1 (open_file [70; 87; 83; 10; 0; 0; 0; 0]) = Ok tt s' /\
    compression s' = Some "none") /\
  unpackHeader1 (open_file [255; 87; 83; 10; 0; 0; 0; 0]) = Raise UnicodeDecodeError.
Proof.
  split.
  2: { pose proof (unpackHeader1_signature (open_file [255; 87; 83; 10; 0; 0; 0; 0])
                     [255; 87; 83; 10; 0; 0; 0; 0] [] eq_refl eq_refl) as H.
       destruct (unpackHeader1 (open_file [255; 87; 83; 10; 0; 0; 0; 0])) as [u s'|e].
       - simpl in H. destruct H as [[Hf _] | [[Hf _] | [Hf _]]]; discriminate Hf.
       - destruct H as [_ [_ H]]. rewrite (H eq_refl). reflexivity. }
  pose proof (unpackHeader1_signature (open_file [70; 87; 83; 10; 0; 0; 0; 0])
                [70; 87; 83; 10; 0; 0; 0; 0] [] eq_refl eq_refl) as H.
  destruct (unpackHeader1 (open_file [70; 87; 83; 10; 0; 0; 0; 0])) as [[] s'|e].
  - exists s'. split; [reflexivity|].
    destruct H as [[_ [Hc _]] | [[Hf _] | [Hf _]]]; [exact Hc | discriminate Hf | discriminate Hf].
  - destruct H as [Hn _]. exfalso. apply Hn. left. reflexivity.
Defined.

Lemma unpackRect_consumes_witness :
  (exists r, unpackRect (open_file [127; 249; 192; 50; 0; 0; 1; 244; 0]) =
     Ok r (set_cursor 9 (open_file [127; 249; 192; 50; 0; 0; 1; 244; 0]))) /\
  unpackRect (open_file [0; 0; 24; 1; 0]) = Raise BitstructError.
Proof.
  split.
  - pose proof (unpackRect_consumes (open_file [127; 249; 192; 50; 0; 0; 1; 244; 0])
                  127 [249; 192; 50; 0; 0; 1; 244; 0] eq_refl) as H.
    cbv zeta in H. destruct H as [_ [_ [H _]]].
    destruct H as [r Hr].
    + vm_compute. intros Hc. discriminate Hc.
    + vm_compute. intros Hc. discriminate Hc.
    + exists r. exact Hr.
  - pose proof (unpackRect_consumes (open_file [0; 0; 24; 1; 0]) 0 [0; 24; 1; 0] eq_refl) as H.
    cbv zeta in H. destruct H as [_ [_ [_ H]]].
    apply H. reflexivity.
Defined.

Lemma unpackRect_width15_witness :
  unpackRect (open_file [127; 249; 192; 50; 0; 0; 1; 244; 0]) =
  Ok (mkSWFRect (-100) 400 0 1000) (set_cursor 9 (open_file [127; 249; 192; 50; 0; 0; 1; 244; 0])).
Proof. exact (unpackRect_width15 (open_file [127; 249; 192; 50; 0; 0; 1; 244; 0]) [] eq_refl). Defined.

(** ** Further properties of the parser *)

(** *** Reads on arbitrary input *)

Lemma read_after (k : nat) (s : SWFFile) :
  read k s = Ok (firstn k (skipn (cursor s) (handle s)))
               (after s (cursor s + List.length (firstn k (skipn (cursor s) (handle s)))) [] []).
Proof. unfold read. cbv zeta. rewrite set_cursor_is_after. reflexivity. Qed.

Lemma length_read (k : nat) (s : SWFFile) :
  List.length (firstn k (skipn (cursor s) (handle s))) =
  Nat.min k (List.length (handle s) - cursor s).
Proof. rewrite length_firstn, length_skipn. reflexivity. Qed.

Lemma after_set_cursor (s : SWFFile) (m n : nat) ts o :
  after (set_cursor m s) n ts o = after s n ts o.
Proof. destruct s. reflexivity. Qed.

Lemma byte_range_firstn (k : nat) (bs : list Z) : byte_range bs -> byte_range (firstn k bs).
Proof.
  unfold byte_range. revert bs; induction k as [|k IH]; intros bs H; [constructor|].
  destruct bs as [|b bs]; [constructor|]. inversion H; subst. simpl. constructor; auto.
Qed.

Lemma byte_range_skipn (k : nat) (bs : list Z) : byte_range bs -> byte_range (skipn k bs).
Proof.
  unfold byte_range. revert bs; induction k as [|k IH]; intros bs H; [exact H|].
  destruct bs as [|b bs]; [constructor|]. inversion H; subst. simpl. auto.
Qed.

Lemma le_uint_range (bs : list Z) :
  byte_range bs -> 0 <= le_uint bs < 256 ^ Z.of_nat (List.length bs).
Proof.
  unfold byte_range. induction bs as [|b bs IH]; intros H; [simpl; lia|].
  inversion H; subst. specialize (IH H3). cbn [le_uint List.length].
  rewrite Nat2Z.inj_succ, Z.pow_succ_r by lia. nia.
Qed.

(** *** [unpackTagHeader] and [unpackTag] on arbitrary input *)

Lemma unpackTagHeader_frame (s : SWFFile) (t : SWFTag) (s' : SWFFile) :
  unpackTagHeader s = Ok t s' ->
  exists n, s' = after s n [] (unknown_out (code t)) /\
    (cursor s + 2 <= n <= List.length (handle s))%nat /\
    (byte_range (handle s) -> tag_ok t).
Proof.
  intros H. unfold unpackTagHeader in H.
  rewrite (bind_Ok _ _ _ _ _ (read_after 2 s)) in H. cbv beta in H.
  set (bs := firstn 2 (skipn (cursor s) (handle s))) in H.
  pose proof (length_read 2 s) as Hl. fold bs in Hl.
  unfold bind at 1, unpack_le in H.
  destruct (Nat.eqb (List.length bs) 2) eqn:E2; [|discriminate].
  apply Nat.eqb_eq in E2.
  assert (Hbs : byte_range (handle s) -> 0 <= le_uint bs < 65536).
  { intros Hb. pose proof (le_uint_range bs (byte_range_firstn 2 _ (byte_range_skipn _ _ Hb))) as R.
    rewrite E2 in R. exact R. }
  unfold ret at 1 in H. cbv beta zeta in H.
  set (d := le_uint bs) in H, Hbs.
  assert (Hc : 0 <= d -> 0 <= Z.shiftr d 6).
  { intros. rewrite Z.shiftr_div_pow2 by lia. apply Z.div_pos; lia. }
  assert (Hc' : 0 <= d < 65536 -> Z.shiftr d 6 < 1024).
  { intros. rewrite Z.shiftr_div_pow2 by lia. change (2 ^ 6) with 64.
    apply Z.div_lt_upper_bound; lia. }
  destruct (Z.land d 63 =? 63) eqn:E63.
  - unfold bind at 1 in H. unfold bind at 1 in H.
    rewrite read_after in H.
    set (s1 := after s (cursor s + List.length bs) [] []) in H.
    set (bs4 := firstn 4 (skipn (cursor s1) (handle s1))) in H.
    pose proof (length_read 4 s1) as Hl4. fold bs4 in Hl4.
    unfold unpack_le in H.
    destruct (Nat.eqb (List.length bs4) 4) eqn:E4; [|discriminate].
    apply Nat.eqb_eq in E4. unfold ret in H.
    rewrite new_SWFTag_spec in H. injection H as <- <-.
    exists (cursor s + List.length bs + List.length bs4)%nat.
    unfold s1. rewrite !after_after. cbn [code tag_of app]. split; [reflexivity|].
    unfold s1 in Hl4. rewrite cursor_after, handle_after in Hl4. split; [lia|].
    intros Hb. specialize (Hbs Hb).
    assert (Hb4 : byte_range bs4) by (apply byte_range_firstn, byte_range_skipn; exact Hb).
    pose proof (le_uint_range bs4 Hb4) as R4. rewrite E4 in R4.
    unfold tag_ok, tag_of. cbn [code tag_length]. split; [split; auto; lia|].
    split; [exact R4|reflexivity].
  - unfold bind, ret in H. rewrite new_SWFTag_spec in H. injection H as <- <-.
    exists (cursor s + List.length bs)%nat.
    rewrite after_after. cbn [code tag_of app]. split; [reflexivity|]. split; [lia|].
    intros Hb. specialize (Hbs Hb).
    unfold tag_ok, tag_of. cbn [code tag_length]. split; [split; auto; lia|].
    change 63 with (Z.ones 6). rewrite Z.land_ones by lia.
    pose proof (Z.mod_pos_bound d (2 ^ 6) ltac:(lia)). split; [lia|reflexivity].
Qed.

Lemma unpackTagHeader_raise (s : SWFFile) (e : Exc) :
  unpackTagHeader s = Raise e -> e = StructError.
Proof.
  intros H. unfold unpackTagHeader in H.
  rewrite (bind_Ok _ _ _ _ _ (read_after 2 s)) in H. cbv beta in H.
  unfold bind at 1, unpack_le in H.
  destruct (Nat.eqb _ 2); [|unfold raise in H; congruence].
  unfold ret at 1 in H. cbv beta zeta in H.
  destruct (Z.land _ 63 =? 63).
  - unfold bind at 1 in H. unfold bind at 1 in H. rewrite read_after in H.
    unfold unpack_le in H. destruct (Nat.eqb _ 4).
    + unfold ret in H. rewrite new_SWFTag_spec in H. discriminate.
    + unfold raise in H. congruence.
  - unfold bind, ret in H. rewrite new_SWFTag_spec in H. discriminate.
Qed.

Lemma unpackTag_frame (s : SWFFile) (t : SWFTag) (s' : SWFFile) :
  unpackTag s = Ok t s' ->
  exists n, s' = after s n [] (unknown_out (code t)) /\
    (cursor s + 2 <= n <= List.length (handle s))%nat /\
    (byte_range (handle s) -> tag_ok t).
Proof.
  intros H. unfold unpackTag, bind at 1 in H.
  destruct (unpackTagHeader s) as [t0 s0|e] eqn:Eh; [|discriminate].
  destruct (unpackTagHeader_frame s t0 s0 Eh) as [n0 [-> [Hn Ht]]].
  unfold bind in H. rewrite read_after in H. unfold ret in H. injection H as <- <-.
  rewrite after_after, ?cursor_after, ?handle_after. cbn [app]. rewrite app_nil_r.
  eexists. split; [reflexivity|]. split; [|exact Ht].
  rewrite length_firstn, length_skipn. lia.
Qed.

Lemma unpackTag_raise (s : SWFFile) (e : Exc) : unpackTag s = Raise e -> e = StructError.
Proof.
  intros H. unfold unpackTag, bind at 1 in H.
  destruct (unpackTagHeader s) as [t0 s0|e0] eqn:Eh.
  - unfold bind in H. rewrite read_after in H. unfold ret in H. discriminate.
  - injection H as <-. exact (unpackTagHeader_raise s e0 Eh).
Qed.

Lemma append_tag_after (t : SWFTag) (s : SWFFile) n ts o :
  append_tag t (after s n ts o) = Ok tt (after s n (ts ++ [t])%list o).
Proof. unfold append_tag, modify. rewrite set_tags_after. reflexivity. Qed.

Lemma firstn_2_nil (l : list Z) : firstn 2 l = [] -> l = [].
Proof. destruct l; [reflexivity|discriminate]. Qed.

(** The loop of [unpackTags]: the measure [length - cursor + length sample]
    falls at each iteration, so the fuel is never used up; a normal end leaves
    the cursor at the end of the file, with tags appended and output printed
    and nothing else changed. *)
Lemma unpackTags_loop_frame (fuel : nat) :
  forall prev sample s,
  (cursor s <= List.length (handle s))%nat ->
  (sample = [] -> cursor s = List.length (handle s)) ->
  (List.length (handle s) - cursor s + List.length sample < fuel)%nat ->
  match unpackTags_loop fuel prev sample s with
  | Ok _ s' => exists ts o, s' = after s (List.length (handle s)) ts o /\
                 (byte_range (handle s) -> Forall tag_ok ts)
  | Raise e => e <> FuelExhausted
  end.
Proof.
  induction fuel as [|fuel IH]; intros prev sample s Hc Hs Hf; [lia|].
  destruct sample as [|x sample'].
  - cbn [unpackTags_loop]. unfold ret. exists [], []. split.
    + rewrite <- (Hs eq_refl). symmetry. apply after_id.
    + intros _. constructor.
  - cbn [unpackTags_loop].
    rewrite (bind_Ok _ _ _ _ _ (after_end_out_spec prev s)).
    destruct (Nat.le_gt_cases 2 (cursor s)) as [E2|E2].
    + rewrite (bind_Ok _ _ _ _ _ (seek_back (after s (cursor s) [] (after_end_out prev)) E2)).
      rewrite set_cursor_after, cursor_after.
      set (s2 := after s (cursor s - 2) [] (after_end_out prev)).
      destruct (unpackTag s2) as [t s3|e] eqn:Et.
      2:{ rewrite (bind_Raise _ _ _ _ Et). apply unpackTag_raise in Et. congruence. }
      rewrite (bind_Ok _ _ _ _ _ Et).
      destruct (unpackTag_frame _ _ _ Et) as [n [Hs3 [Hn Ht]]]. subst s3.
      unfold s2 in Hn, Ht. rewrite cursor_after, handle_after in Hn. rewrite handle_after in Ht.
      unfold s2. rewrite after_after.
      rewrite (bind_Ok _ _ _ _ _ (append_tag_after _ _ _ _ _)).
      rewrite (bind_Ok _ _ _ _ _ (read_after 2 _)).
      rewrite !cursor_after, !handle_after, after_after.
      set (smp := firstn 2 (skipn n (handle s))).
      assert (Hl : List.length smp = Nat.min 2 (List.length (handle s) - n))
        by (unfold smp; rewrite length_firstn, length_skipn; reflexivity).
      match goal with |- context [unpackTags_loop fuel ?p ?sm ?st] =>
        pose proof (IH p sm st) as IH'; destruct (unpackTags_loop fuel p sm st) as [u s'|e] end.
      * destruct IH' as [ts [o [-> Hts]]].
        -- rewrite cursor_after, handle_after. lia.
        -- intros Hnil. rewrite cursor_after, handle_after.
           assert (Hsk : skipn n (handle s) = []) by (apply firstn_2_nil; exact Hnil).
           pose proof (f_equal (@List.length Z) Hsk) as Hk. rewrite length_skipn in Hk.
           rewrite Hnil. simpl in Hk |- *. lia.
        -- rewrite cursor_after, handle_after. simpl List.length in Hf. lia.
        -- rewrite handle_after, after_after. eexists _, _. split; [reflexivity|].
           intros Hb. apply Forall_app. split.
           ++ simpl. constructor; [exact (Ht Hb)|constructor].
           ++ exact (Hts Hb).
      * apply IH'.
        -- rewrite cursor_after, handle_after. lia.
        -- intros Hnil. rewrite cursor_after, handle_after.
           assert (Hsk : skipn n (handle s) = []) by (apply firstn_2_nil; exact Hnil).
           pose proof (f_equal (@List.length Z) Hsk) as Hk. rewrite length_skipn in Hk.
           rewrite Hnil. simpl in Hk |- *. lia.
        -- rewrite cursor_after, handle_after. simpl List.length in Hf. lia.
    + unfold bind at 1, seek_cur at 1. cbv beta zeta. rewrite cursor_after.
      replace (Z.of_nat (cursor s) + -2 <? 0) with true by (symmetry; apply Z.ltb_lt; lia).
      simpl. discriminate.
Qed.

Lemma unpackTags_past_end (s : SWFFile) :
  (List.length (handle s) <= cursor s)%nat -> unpackTags s = Ok tt s.
Proof.
  intros H. unfold unpackTags.
  rewrite (bind_Ok _ _ _ _ _ (eq_refl : get s = Ok s s)).
  rewrite (bind_Ok _ _ _ _ _ (read_after 2 s)).
  rewrite (skipn_all2 (handle s) H). cbn [firstn List.length unpackTags_loop]. unfold ret.
  rewrite Nat.add_0_r. f_equal. apply after_id.
Qed.

Lemma unpackTags_frame_all (s : SWFFile) :
  match unpackTags s with
  | Ok _ s' => exists ts o, s' = after s (Nat.max (cursor s) (List.length (handle s))) ts o /\
                 (byte_range (handle s) -> Forall tag_ok ts)
  | Raise e => e <> FuelExhausted
  end.
Proof.
  destruct (Nat.le_gt_cases (List.length (handle s)) (cursor s)) as [Hle|Hgt].
  - rewrite (unpackTags_past_end s Hle). exists [], []. split.
    + rewrite Nat.max_l by exact Hle. symmetry. apply after_id.
    + intros _. constructor.
  - rewrite Nat.max_r by lia. unfold unpackTags.
    rewrite (bind_Ok _ _ _ _ _ (eq_refl : get s = Ok s s)).
    rewrite (bind_Ok _ _ _ _ _ (read_after 2 s)).
    set (smp := firstn 2 (skipn (cursor s) (handle s))).
    assert (Hl : List.length smp = Nat.min 2 (List.length (handle s) - cursor s))
      by (unfold smp; rewrite length_firstn, length_skipn; reflexivity).
    match goal with |- context [unpackTags_loop ?f ?p ?sm ?st] =>
      pose proof (unpackTags_loop_frame f p sm st) as L; destruct (unpackTags_loop f p sm st) as [u s'|e] end.
    + destruct L as [ts [o [-> Hts]]].
      * rewrite cursor_after, handle_after. lia.
      * intros Hnil. exfalso. rewrite Hnil in Hl. cbn [List.length] in Hl. lia.
      * rewrite cursor_after, handle_after. lia.
      * rewrite handle_after, after_after. eexists _, _. split; [reflexivity|]. exact Hts.
    + apply L.
      * rewrite cursor_after, handle_after. lia.
      * intros Hnil. exfalso. rewrite Hnil in Hl. cbn [List.length] in Hl. lia.
      * rewrite cursor_after, handle_after. lia.
Qed.

(** *** Extra properties of [unpackTags] *)

(** The [while] loop of [SWFFile.unpackTags] terminates on every file and
    every start position: each iteration moves the cursor forward, so the
    parse ends normally or with one of the parser's own exceptions. *)
Theorem unpackTags_terminates (s : SWFFile) : unpackTags s <> Raise FuelExhausted.
Proof.
  pose proof (unpackTags_frame_all s) as H.
  destruct (unpackTags s) as [u s'|e]; [discriminate|].
  intros E. injection E as ->. exact (H eq_refl).
Qed.

(** A normal end of [unpackTags] leaves the cursor at the end of the file
    (or where it was, past the end); it only appends to [tags] and to the
    output, and changes no other field of the [SWFFile]. *)
Theorem unpackTags_only_appends (s s' : SWFFile) (u : unit) :
  unpackTags s = Ok u s' ->
  exists ts o, s' = after s (Nat.max (cursor s) (List.length (handle s))) ts o.
Proof.
  intros H. pose proof (unpackTags_frame_all s) as F. rewrite H in F.
  destruct F as [ts [o [E _]]]. exists ts, o. exact E.
Qed.

(** Every tag [unpackTags] appends, on any byte content, has a code in
    0..1023, a length in 0..2^32-1, and the type name [tagCodeTranslation]
    gives its code ("!UNKNOWN!" when absent). *)
Theorem unpackTags_tags_well_formed (s s' : SWFFile) (u : unit) :
  byte_range (handle s) -> unpackTags s = Ok u s' ->
  exists ts, tags s' = (tags s ++ ts)%list /\ Forall tag_ok ts.
Proof.
  intros Hb H. pose proof (unpackTags_frame_all s) as F. rewrite H in F.
  destruct F as [ts [o [-> Hts]]]. exists ts. split; [reflexivity|exact (Hts Hb)].
Qed.

(** With no byte left at the cursor, [unpackTags] appends no tag, prints
    nothing and leaves the [SWFFile] unchanged. *)
Theorem unpackTags_empty (s : SWFFile) :
  skipn (cursor s) (handle s) = [] -> unpackTags s = Ok tt s.
Proof.
  intros H. apply unpackTags_past_end.
  pose proof (f_equal (@List.length Z) H) as L. rewrite length_skipn in L. simpl in L. lia.
Qed.

(** A file holding a single byte, parsed for tags from its start, makes
    [unpackTags] raise: after the one-byte sample, [seek(-2, SEEK_CUR)] goes
    before the start of the file. *)
Theorem unpackTags_single_byte_file (s : SWFFile) (x : Z) :
  cursor s = 0%nat -> handle s = [x] -> unpackTags s = Raise OSError.
Proof. intros Hc Hh. destruct s; cbn in Hc, Hh; subst. reflexivity. Qed.

(** Round trip: for any stream of complete, well-formed tags (short or long
    headers) at the cursor, [unpackTags] appends exactly their decoded tags,
    in order, prints exactly the unknown-code and tags-after-End warnings of
    [tags_out], and stops at the end of the stream. *)
Theorem unpackTags_roundtrip (s : SWFFile) (rs : list TagRec) :
  Forall wf_tag rs ->
  skipn (cursor s) (handle s) = encode_tags rs ->
  unpackTags s =
  Ok tt (after s (cursor s + List.length (encode_tags rs)) (map tag_of_rec rs) (tags_out None rs)).
Proof. intros Hw H. exact (unpackTags_encoded rs s Hw H). Qed.

(** *** Bit strings of a rect *)

Lemma fold_bits (r : list Z) (a : Z) :
  fold_left (fun acc b => acc * 256 + b) r a =
  a * 256 ^ Z.of_nat (List.length r) + fold_left (fun acc b => acc * 256 + b) r 0.
Proof.
  revert a; induction r as [|x r IH]; intros a; [simpl; lia|].
  cbn [fold_left List.length]. rewrite (IH (a * 256 + x)), (IH (0 * 256 + x)).
  rewrite Nat2Z.inj_succ, Z.pow_succ_r by lia. ring.
Qed.

Lemma bits_of_cons (b : Z) (r : list Z) :
  bits_of (b :: r) = b * 256 ^ Z.of_nat (List.length r) + bits_of r.
Proof. unfold bits_of. cbn [fold_left]. rewrite fold_bits. reflexivity. Qed.

Lemma be_bytes_length (n : nat) (v : Z) : List.length (be_bytes n v) = n.
Proof. induction n; simpl; auto. Qed.

Lemma bits_of_be_bytes (n : nat) (v : Z) : 0 <= v -> bits_of (be_bytes n v) = v mod 256 ^ Z.of_nat n.
Proof.
  intros Hv. induction n as [|n IH].
  - simpl. rewrite Z.mod_1_r. reflexivity.
  - cbn [be_bytes]. rewrite bits_of_cons, be_bytes_length, IH.
    set (P := 256 ^ Z.of_nat n).
    assert (HP : 0 < P) by (unfold P; apply Z.pow_pos_nonneg; lia).
    rewrite Nat2Z.inj_succ, Z.pow_succ_r by lia. fold P.
    apply Z.mod_unique with (q := v / P / 256).
    + left. split.
      * pose proof (Z.mod_pos_bound (v / P) 256 ltac:(lia)).
        pose proof (Z.mod_pos_bound v P HP). nia.
      * pose proof (Z.mod_pos_bound (v / P) 256 ltac:(lia)).
        pose proof (Z.mod_pos_bound v P HP). nia.
    + pose proof (Z.div_mod v P ltac:(lia)).
      pose proof (Z.div_mod (v / P) 256 ltac:(lia)). nia.
Qed.

(** [((A * (P * p) + u * P + B) / P) mod p = u] for [0 <= u < p] and
    [0 <= B < P]: a field read out of a bit string. *)
Lemma extract_field (A u B P p : Z) :
  0 < P -> 0 < p -> 0 <= u < p -> 0 <= B < P ->
  ((A * (P * p) + u * P + B) / P) mod p = u.
Proof.
  intros HP Hp Hu HB.
  replace (A * (P * p) + u * P + B) with ((A * p + u) * P + B) by ring.
  rewrite Z.div_add_l by lia. rewrite (Z.div_small B) by lia. rewrite Z.add_0_r.
  rewrite Z.add_comm, Z.mod_add by lia.
  apply Z.mod_small. exact Hu.
Qed.

Lemma signed_of_mod (w x : Z) :
  1 <= w -> fits_signed w x ->
  (if Z.testbit (x mod 2 ^ w) (w - 1) then x mod 2 ^ w - 2 ^ w else x mod 2 ^ w) = x.
Proof.
  unfold fits_signed. intros Hw Hx.
  assert (Hp : 2 ^ w = 2 * 2 ^ (w - 1)).
  { rewrite <- Z.pow_succ_r by lia. f_equal. lia. }
  assert (Hq : 0 < 2 ^ (w - 1)) by (apply Z.pow_pos_nonneg; lia).
  pose proof (Z.testbit_spec' (x mod 2 ^ w) (w - 1) ltac:(lia)) as T.
  destruct (Z.le_gt_cases 0 x) as [Hpos|Hneg].
  - rewrite Z.mod_small in * by lia.
    rewrite (Z.div_small x) in T by lia. rewrite Zmod_0_l in T.
    destruct (Z.testbit x (w - 1)); [discriminate|reflexivity].
  - assert (Hm : x mod 2 ^ w = x + 2 ^ w).
    { symmetry. apply Z.mod_unique with (q := -1); [left|]; lia. }
    rewrite Hm in *.
    assert (Hd : (x + 2 ^ w) / 2 ^ (w - 1) = 1).
    { symmetry. apply Z.div_unique with (r := x + 2 ^ (w - 1)); [left|]; lia. }
    rewrite Hd in T. change (1 mod 2) with 1 in T.
    destruct (Z.testbit (x + 2 ^ w) (w - 1)); [lia|discriminate].
Qed.

Lemma pow_w_mult (w : Z) (k : Z) : 0 <= w -> 0 <= k -> 2 ^ (k * w) = (2 ^ w) ^ k.
Proof. intros. rewrite <- Z.pow_mul_r by lia. f_equal. ring. Qed.

Lemma rect_bits_shape (w x0 x1 x2 x3 : Z) :
  0 <= w ->
  rect_bits w x0 x1 x2 x3 =
  w * (2 ^ w * 2 ^ w * 2 ^ w * 2 ^ w) + (x0 mod 2 ^ w) * (2 ^ w * 2 ^ w * 2 ^ w)
  + (x1 mod 2 ^ w) * (2 ^ w * 2 ^ w) + (x2 mod 2 ^ w) * 2 ^ w + x3 mod 2 ^ w.
Proof.
  intros Hw. unfold rect_bits.
  rewrite (pow_w_mult w 4), (pow_w_mult w 3), (pow_w_mult w 2) by lia. ring.
Qed.

Lemma rect_bits_fields (w x0 x1 x2 x3 : Z) :
  1 <= w ->
  let V := rect_bits w x0 x1 x2 x3 in
  (V / 2 ^ (3 * w)) mod 2 ^ w = x0 mod 2 ^ w /\
  (V / 2 ^ (2 * w)) mod 2 ^ w = x1 mod 2 ^ w /\
  (V / 2 ^ w) mod 2 ^ w = x2 mod 2 ^ w /\
  V mod 2 ^ w = x3 mod 2 ^ w.
Proof.
  intros Hw V. unfold V. rewrite rect_bits_shape by lia.
  rewrite (pow_w_mult w 3), (pow_w_mult w 2) by lia.
  set (p := 2 ^ w). assert (Hp : 0 < p) by (apply Z.pow_pos_nonneg; lia).
  change ((p ^ 3)) with (p ^ 3). replace (p ^ 3) with (p * p * p) by ring.
  replace (p ^ 2) with (p * p) by ring.
  pose proof (Z.mod_pos_bound x0 p Hp). pose proof (Z.mod_pos_bound x1 p Hp).
  pose proof (Z.mod_pos_bound x2 p Hp). pose proof (Z.mod_pos_bound x3 p Hp).
  set (u0 := x0 mod p). set (u1 := x1 mod p). set (u2 := x2 mod p). set (u3 := x3 mod p).
  assert (B1 : 0 <= u2 * p + u3 < p * p) by nia.
  assert (B2 : 0 <= u1 * (p * p) + u2 * p + u3 < p * p * p) by nia.
  split; [|split; [|split]].
  - replace (w * (p * p * p * p) + u0 * (p * p * p) + u1 * (p * p) + u2 * p + u3)
      with (w * ((p * p * p) * p) + u0 * (p * p * p) + (u1 * (p * p) + u2 * p + u3)) by ring.
    apply extract_field; nia.
  - replace (w * (p * p * p * p) + u0 * (p * p * p) + u1 * (p * p) + u2 * p + u3)
      with ((w * p + u0) * ((p * p) * p) + u1 * (p * p) + (u2 * p + u3)) by ring.
    apply extract_field; nia.
  - replace (w * (p * p * p * p) + u0 * (p * p * p) + u1 * (p * p) + u2 * p + u3)
      with ((w * p * p + u0 * p + u1) * (p * p) + u2 * p + u3) by ring.
    apply extract_field; nia.
  - replace (w * (p * p * p * p) + u0 * (p * p * p) + u1 * (p * p) + u2 * p + u3)
      with (u3 + (w * p * p * p + u0 * p * p + u1 * p + u2) * p) by ring.
    rewrite Z.mod_add by lia. apply Z.mod_small. lia.
Qed.

Lemma rect_bits_range (w x0 x1 x2 x3 : Z) :
  0 <= w < 32 -> 0 <= rect_bits w x0 x1 x2 x3 < 2 ^ w * 2 ^ w * 2 ^ w * 2 ^ w * 32.
Proof.
  intros Hw. rewrite rect_bits_shape by lia.
  set (p := 2 ^ w). assert (Hp : 0 < p) by (apply Z.pow_pos_nonneg; lia).
  pose proof (Z.mod_pos_bound x0 p Hp). pose proof (Z.mod_pos_bound x1 p Hp).
  pose proof (Z.mod_pos_bound x2 p Hp). pose proof (Z.mod_pos_bound x3 p Hp).
  set (u0 := x0 mod p). set (u1 := x1 mod p). set (u2 := x2 mod p). set (u3 := x3 mod p).
  assert (B1 : 0 <= u2 * p + u3 < p * p) by nia.
  assert (B2 : 0 <= u1 * (p * p) + u2 * p + u3 < p * p * p) by nia.
  assert (B3 : 0 <= u0 * (p * p * p) + u1 * (p * p) + u2 * p + u3 < p * p * p * p) by nia.
  nia.
Qed.

Lemma rect_first_byte (w V pad M : Z) :
  1 <= w <= 31 -> 0 <= pad -> 0 <= M -> 4 * w + pad = 8 * M + 3 ->
  w * 2 ^ (4 * w) <= V < (w + 1) * 2 ^ (4 * w) ->
  Z.land (Z.shiftr ((V * 2 ^ pad / 256 ^ M) mod 256) 3) 31 = w.
Proof.
  intros Hw Hp HM Heq HV.
  change 256 with (2 ^ 8) at 1. rewrite <- Z.pow_mul_r by lia.
  set (Q := 2 ^ (8 * M)). assert (HQ : 0 < Q) by (apply Z.pow_pos_nonneg; lia).
  assert (HP : 2 ^ (4 * w) * 2 ^ pad = Q * 8).
  { rewrite <- Z.pow_add_r by lia. rewrite Heq. unfold Q.
    rewrite Z.pow_add_r by lia. reflexivity. }
  assert (H2p : 0 < 2 ^ pad) by (apply Z.pow_pos_nonneg; lia).
  set (L := V - w * 2 ^ (4 * w)).
  assert (HL : 0 <= L * 2 ^ pad < Q * 8) by (unfold L; rewrite <- HP; nia).
  replace (V * 2 ^ pad) with (L * 2 ^ pad + (8 * w) * Q)
    by (unfold L; replace (8 * w * Q) with (w * (Q * 8)) by ring; rewrite <- HP; ring).
  rewrite Z.div_add by lia.
  assert (Hd : 0 <= L * 2 ^ pad / Q < 8).
  { split; [apply Z.div_pos; lia | apply Z.div_lt_upper_bound; lia]. }
  rewrite Z.mod_small by lia.
  rewrite Z.shiftr_div_pow2 by lia. change (2 ^ 3) with 8.
  replace (L * 2 ^ pad / Q + 8 * w) with (L * 2 ^ pad / Q + w * 8) by ring.
  rewrite Z.div_add by lia. rewrite Z.div_small by lia. rewrite Z.add_0_l.
  change 31 with (Z.ones 5). rewrite Z.land_ones by lia. apply Z.mod_small.
  change (2 ^ 5) with 32. lia.
Qed.

(** *** Extra properties of [unpackRect] *)

(** [unpackRect] inverts the encoding of a rect: for any width [w] in
    1..31 and four values that fit in [w] signed bits, the big-endian bytes
    of the bit string [w (5 bits), x0, x1, x2, x3 (w bits each)], padded
    with zero bits to whole bytes, decode to exactly those four values, and
    the cursor moves past exactly those [ceil((5+4w)/8)] bytes, whatever
    follows them. *)
Theorem unpackRect_roundtrip (s : SWFFile) (w x0 x1 x2 x3 : Z) (rest : list Z) :
  1 <= w <= 31 ->
  fits_signed w x0 -> fits_signed w x1 -> fits_signed w x2 -> fits_signed w x3 ->
  skipn (cursor s) (handle s) = (encode_rect w x0 x1 x2 x3 ++ rest)%list ->
  unpackRect s =
  Ok (mkSWFRect x0 x1 x2 x3) (set_cursor (cursor s + rect_nbytes w) s).
Proof.
  intros Hw H0 H1 H2 H3 Hs.
  set (N := (5 + 4 * w + 7) / 8).
  assert (HN : 8 * N <= 12 + 4 * w < 8 * N + 8) by (unfold N; Z.to_euclidean_division_equations; lia).
  set (pad := 8 * N - (5 + 4 * w)).
  set (V := rect_bits w x0 x1 x2 x3).
  set (X := V * 2 ^ pad).
  set (m := (Z.to_nat N - 1)%nat).
  assert (Hm : rect_nbytes w = S m) by (unfold rect_nbytes, m; fold N; lia).
  assert (HZm : Z.of_nat m = N - 1) by (unfold m; lia).
  assert (Henc : encode_rect w x0 x1 x2 x3 = be_bytes (S m) X).
  { unfold encode_rect. fold V.
    replace (Z.of_nat (rect_nbytes w)) with N by (rewrite Hm; lia).
    fold pad. fold X. rewrite Hm. reflexivity. }
  rewrite Henc in Hs. cbn [be_bytes app] in Hs.
  pose proof (unpackRect_step s _ _ Hs) as Step. cbv zeta in Step.
  set (p := 2 ^ w). assert (Hp : 0 < p) by (apply Z.pow_pos_nonneg; lia).
  pose proof (rect_bits_range w x0 x1 x2 x3 ltac:(lia)) as HV. fold V in HV.
  assert (H4 : 2 ^ (4 * w) = p * p * p * p) by (rewrite (pow_w_mult w 4) by lia; fold p; ring).
  assert (H2pad : 0 < 2 ^ pad) by (apply Z.pow_pos_nonneg; lia).
  assert (HX : 0 <= X < 256 ^ Z.of_nat (S m)).
  { replace (256 ^ Z.of_nat (S m)) with (2 ^ (4 * w) * 32 * 2 ^ pad).
    - unfold X. rewrite H4. nia.
    - change 256 with (2 ^ 8). rewrite <- Z.pow_mul_r by lia.
      replace 32 with (2 ^ 5) by reflexivity.
      rewrite <- !Z.pow_add_r by lia. f_equal. lia. }
  assert (Hb : Z.land (Z.shiftr ((X / 256 ^ Z.of_nat m) mod 256) 3) 31 = w).
  { unfold X. apply rect_first_byte; [lia | lia | lia | lia |].
    rewrite H4. unfold V. rewrite rect_bits_shape by lia. fold p.
    pose proof (Z.mod_pos_bound x0 p Hp). pose proof (Z.mod_pos_bound x1 p Hp).
    pose proof (Z.mod_pos_bound x2 p Hp). pose proof (Z.mod_pos_bound x3 p Hp).
    set (u0 := x0 mod p) in *. set (u1 := x1 mod p) in *.
    set (u2 := x2 mod p) in *. set (u3 := x3 mod p) in *.
    assert (B1 : 0 <= u2 * p + u3 < p * p) by nia.
    assert (B2 : 0 <= u1 * (p * p) + u2 * p + u3 < p * p * p) by nia.
    assert (B3 : 0 <= u0 * (p * p * p) + u1 * (p * p) + u2 * p + u3 < p * p * p * p) by nia.
    nia. }
  rewrite Hb in Step.
  assert (Hn : Z.to_nat (py_ceil_div (w * 4 - 3) 8) = m).
  { unfold py_ceil_div. apply Nat2Z.inj. rewrite HZm.
    clearbody N. Z.to_euclidean_division_equations. lia. }
  rewrite Hn, (firstn_app_len m) in Step by apply be_bytes_length.
  rewrite Step, Hm.
  change ([(X / 256 ^ Z.of_nat m) mod 256] ++ be_bytes m X)%list with (be_bytes (S m) X).
  assert (Fgen : forall off k, 0 <= k -> 8 * Z.of_nat (S m) - off - w = pad + k ->
                 field_u (be_bytes (S m) X) off w = (V / 2 ^ k) mod 2 ^ w).
  { intros off k Hk Hsh. unfold field_u.
    rewrite be_bytes_length, Hsh, bits_of_be_bytes by lia.
    rewrite (Z.mod_small X) by lia.
    rewrite Z.shiftr_div_pow2 by lia. rewrite Z.land_ones by lia.
    unfold X. rewrite Z.pow_add_r by lia. rewrite <- Z.div_div by lia.
    rewrite Z.div_mul by lia. reflexivity. }
  destruct (rect_bits_fields w x0 x1 x2 x3 ltac:(lia)) as (F0 & F1 & F2 & F3).
  fold V in F0, F1, F2, F3.
  assert (E0 : field_u (be_bytes (S m) X) 5 w = x0 mod 2 ^ w)
    by (rewrite (Fgen 5 (3 * w)) by lia; exact F0).
  assert (E1 : field_u (be_bytes (S m) X) (5 + w) w = x1 mod 2 ^ w)
    by (rewrite (Fgen (5 + w) (2 * w)) by lia; exact F1).
  assert (E2 : field_u (be_bytes (S m) X) (5 + 2 * w) w = x2 mod 2 ^ w)
    by (rewrite (Fgen (5 + 2 * w) w) by lia; exact F2).
  assert (E3 : field_u (be_bytes (S m) X) (5 + 3 * w) w = x3 mod 2 ^ w).
  { rewrite (Fgen (5 + 3 * w) 0) by lia. rewrite Z.pow_0_r, Z.div_1_r. exact F3. }
  unfold bind, bitstruct_unpack_rect.
  replace (w =? 0) with false by (symmetry; apply Z.eqb_neq; lia).
  rewrite be_bytes_length.
  replace (8 * Z.of_nat (S m) <? 5 + 4 * w) with false by (symmetry; apply Z.ltb_ge; lia).
  unfold ret, field_s. rewrite E0, E1, E2, E3.
  rewrite !signed_of_mod by (assumption || lia).
  rewrite be_bytes_length. f_equal. f_equal. lia.
Qed.

(** [unpackRect] fails with the bitstruct error when no byte is left, or
    when fewer bytes remain than the [5 + 4w] bits of the rect need, [w]
    being the width in the first five bits: the short read of the
    remaining bytes is not detected before bitstruct unpacks them. *)
Theorem unpackRect_fails (s : SWFFile) :
  match skipn (cursor s) (handle s) with
  | [] => True
  | b :: rest =>
      8 * (1 + Z.of_nat (List.length rest)) < 5 + 4 * Z.land (Z.shiftr b 3) 31
  end ->
  unpackRect s = Raise BitstructError.
Proof.
  destruct (skipn (cursor s) (handle s)) as [|b rest] eqn:Hs; intros Hc.
  - unfold unpackRect. rewrite (bind_Ok _ _ _ _ _ (read_spec 1 s _ Hs)). reflexivity.
  - rewrite (unpackRect_step s b rest Hs). cbv zeta.
    unfold bind at 1, bitstruct_unpack_rect.
    destruct (Z.land (Z.shiftr b 3) 31 =? 0) eqn:E0; [reflexivity|].
    cbn [List.length app].
    rewrite length_firstn.
    rewrite (proj2 (Z.ltb_lt _ _)) by lia. reflexivity.
Qed.

(** *** Extra properties of [unpackTagHeader] and [unpackTag] *)

(** The short header form: for a code below 1024 and an inline length
    below 63, the two little-endian bytes of [code * 64 + length] decode to
    that code and length; the cursor moves two bytes and nothing but the
    unknown-code warning is printed. *)
Theorem unpackTagHeader_short_form (s : SWFFile) (c l : Z) (rest : list Z) :
  0 <= c < 1024 -> 0 <= l < 63 ->
  skipn (cursor s) (handle s) = (le_bytes 2 (c * 64 + l) ++ rest)%list ->
  unpackTagHeader s = Ok (tag_of c l) (after s (cursor s + 2) [] (unknown_out c)).
Proof.
  intros Hc Hl Hs.
  rewrite (unpackTagHeader_spec (mkTagRec c l false []) rest s).
  - reflexivity.
  - unfold wf_header; cbn [tr_code tr_len tr_long]. split; [lia|split; [lia|]].
    intros _. lia.
  - exact Hs.
Qed.

(** Fewer than two bytes left: the [struct.unpack('<H', ...)] of the
    header fails. *)
Theorem unpackTagHeader_truncated (s : SWFFile) :
  (List.length (skipn (cursor s) (handle s)) < 2)%nat ->
  unpackTagHeader s = Raise StructError.
Proof.
  intros H. unfold unpackTagHeader.
  rewrite (bind_Ok _ _ _ _ _ (read_after 2 s)). cbv beta.
  unfold bind at 1, unpack_le.
  rewrite firstn_all2 by lia. apply Nat.lt_neq in H.
  rewrite (proj2 (Nat.eqb_neq _ _) H). reflexivity.
Qed.

(** An inline length of 63 announces a four-byte length; when fewer than
    four bytes follow the two header bytes, its [struct.unpack('<I', ...)]
    fails. *)
Theorem unpackTagHeader_long_truncated (s : SWFFile) (b0 b1 : Z) (rest : list Z) :
  skipn (cursor s) (handle s) = b0 :: b1 :: rest ->
  Z.land (b0 + 256 * b1) 63 = 63 -> (List.length rest < 4)%nat ->
  unpackTagHeader s = Raise StructError.
Proof.
  intros Hs H63 Hr. unfold unpackTagHeader.
  rewrite (bind_Ok _ _ _ _ _ (read_spec 2 s _ Hs)). cbv beta.
  change (firstn 2 (b0 :: b1 :: rest)) with [b0; b1].
  unfold bind at 1, unpack_le. cbn [List.length Nat.eqb]. unfold ret.
  cbn [le_uint]. rewrite Z.mul_0_r, Z.add_0_r, H63, Z.eqb_refl.
  assert (Hr2 : skipn (cursor s + 2) (handle s) = rest)
    by exact (skipn_after_read s 2 [b0; b1] rest Hs eq_refl).
  unfold bind at 1. cbn [List.length].
  rewrite (bind_Ok _ _ _ _ _ (read_spec 4 (set_cursor (cursor s + 2) s) rest Hr2)). cbv beta.
  unfold unpack_le. rewrite firstn_all2 by lia.
  apply Nat.lt_neq in Hr. rewrite (proj2 (Nat.eqb_neq _ _) Hr). reflexivity.
Qed.

Lemma unpackTags_loop_raise (fuel : nat) (prev : option SWFTag) (sample : list Z)
  (s : SWFFile) (e : Exc) :
  unpackTags_loop fuel prev sample s = Raise e ->
  e = StructError \/ e = OSError \/ e = FuelExhausted.
Proof.
  revert prev sample s. induction fuel as [|fuel IH]; intros prev sample s H.
  - cbn in H. injection H as <-. auto.
  - cbn [unpackTags_loop] in H. destruct sample as [|x sample]; [discriminate|].
    unfold bind at 1 in H.
    destruct ((match prev with
               | Some t => if isEndTag t then print WarnTagsAfterEnd else ret tt
               | None => ret tt end) s) as [u1 s1|e1] eqn:E1;
      [|destruct prev as [t|]; [destruct (isEndTag t)|]; discriminate].
    unfold bind at 1 in H. destruct (seek_cur (-2) s1) as [u2 s2|e2] eqn:E2;
      [|unfold seek_cur in E2; destruct (_ <? 0); [|discriminate];
        injection E2 as <-; injection H as <-; auto].
    unfold bind at 1 in H. destruct (unpackTag s2) as [t s3|e3] eqn:E3;
      [|apply unpackTag_raise in E3; subst; injection H as <-; auto].
    unfold bind at 1, append_tag, modify in H.
    unfold bind at 1, read in H. exact (IH _ _ _ H).
Qed.

Lemma registry_snd_unique (d : list (Z * string)) (a b : Z) (v : string) :
  NoDup (map snd d) -> In (a, v) d -> In (b, v) d -> a = b.
Proof.
  induction d as [|[k w] d IH]; intros Hn Ha Hb; [contradiction|].
  cbn [map snd] in Hn. inversion Hn as [|? ? Hnot Hn']; subst.
  destruct Ha as [Ha|Ha], Hb as [Hb|Hb].
  - congruence.
  - injection Ha as -> ->. exfalso. apply Hnot. apply (in_map snd _ _ Hb).
  - injection Hb as -> ->. exfalso. apply Hnot. apply (in_map snd _ _ Ha).
  - exact (IH Hn' Ha Hb).
Qed.

Lemma tagCodeTranslation_names_NoDup : NoDup (map snd tagCodeTranslation).
Proof.
  cbn [tagCodeTranslation map snd].
  repeat (constructor; [intros Hin; repeat (destruct Hin as [Hin|Hin]; [discriminate|]); exact Hin|]).
  constructor.
Qed.

Lemma registry_not_unknown (c : Z) (v : string) :
  dict_lookup tagCodeTranslation c = Some v -> v <> "!UNKNOWN!".
Proof.
  intros H. apply dict_lookup_In in H. cbn [tagCodeTranslation] in H.
  repeat (destruct H as [H|H]; [injection H as _ <-; discriminate|]). contradiction.
Qed.

(** [unpackTags] raises only the [struct] error of a short tag header or
    the [OSError] of seeking before the start of the file. *)
Theorem unpackTags_raise_only (s : SWFFile) (e : Exc) :
  unpackTags s = Raise e -> e = StructError \/ e = OSError.
Proof.
  intros H. pose proof (unpackTags_frame_all s) as Hf. rewrite H in Hf.
  unfold unpackTags, bind, get, read in H.
  destruct (unpackTags_loop_raise _ _ _ _ _ H) as [He|[He|He]]; auto.
  contradiction.
Qed.

(** *** Extra properties of [unpackHeader1] and [unpackHeader2] *)

(** With a known signature, [unpackHeader1] stores the fourth byte as the
    version and the little-endian 32-bit value of the last four bytes as
    the file length, sets the compression and signature, and moves the
    cursor past the eight header bytes; nothing else changes. *)
Theorem unpackHeader1_fields (s : SWFFile) (sg : list Z) (comp name : string)
  (v l : Z) (rest : list Z) :
  In (sg, comp, name)
     [([70; 87; 83], "none", "FWS"); ([67; 87; 83], "zlib", "CWS");
      ([90; 87; 83], "lzma", "ZWS")] ->
  0 <= l < 2 ^ 32 ->
  skipn (cursor s) (handle s) = (sg ++ v :: le_bytes 4 l ++ rest)%list ->
  unpackHeader1 s =
  Ok tt (set_signature name (set_compression comp
           (set_version_fileLength v l (set_cursor (cursor s + 8) s)))).
Proof.
  intros Hin Hl Hs.
  assert (Hle : le_uint (le_bytes 4 l) = l) by (apply le_uint_le_bytes; simpl; lia).
  destruct Hin as [E|[E|[E|[]]]]; injection E as <- <- <-;
    (unfold unpackHeader1;
     rewrite (bind_Ok _ _ _ _ _ (read_spec 8 s _ Hs)); cbv beta;
     change (le_bytes 4 l) with (le_bytes 4 l) in Hle;
     cbn [app firstn le_bytes List.length Nat.eqb negb nth skipn];
     cbn [le_bytes] in Hle; rewrite Hle; reflexivity).
Qed.

(** Fewer than eight bytes left: the [struct.unpack('<3sBI', ...)] of the
    envelope fails before any field is set. *)
Theorem unpackHeader1_truncated (s : SWFFile) :
  (List.length (skipn (cursor s) (handle s)) < 8)%nat ->
  unpackHeader1 s = Raise StructError.
Proof.
  intros H. unfold unpackHeader1.
  rewrite (bind_Ok _ _ _ _ _ (read_after 8 s)). cbv beta.
  rewrite firstn_all2 by lia. apply Nat.lt_neq in H.
  rewrite (proj2 (Nat.eqb_neq _ _) H). reflexivity.
Qed.

(** After the frame-size rect, [unpackHeader2] reads the frame rate and
    the frame count as two little-endian 16-bit values from the next four
    bytes, and stores the rect, the rate and the count. *)
Theorem unpackHeader2_fields (s s1 : SWFFile) (r : SWFRect) (a b c d : Z) (rest : list Z) :
  unpackRect s = Ok r s1 ->
  skipn (cursor s1) (handle s1) = a :: b :: c :: d :: rest ->
  unpackHeader2 s =
  Ok tt (set_frameRate_frameCount (a + 256 * b) (c + 256 * d)
           (set_cursor (cursor s1 + 4) (set_frameSize r s1))).
Proof.
  intros Hr Hs. unfold unpackHeader2.
  rewrite (bind_Ok _ _ _ _ _ Hr). cbv beta.
  unfold bind at 1, modify.
  rewrite (bind_Ok _ _ _ _ _ (read_spec 4 (set_frameSize r s1) _ Hs)). cbv beta.
  cbn [firstn skipn List.length Nat.eqb le_uint].
  rewrite !Z.mul_0_r, !Z.add_0_r. reflexivity.
Qed.

(** Fewer than four bytes after the rect: the [struct.unpack('<HH', ...)]
    of the frame rate and count fails. *)
Theorem unpackHeader2_truncated (s s1 : SWFFile) (r : SWFRect) :
  unpackRect s = Ok r s1 ->
  (List.length (skipn (cursor s1) (handle s1)) < 4)%nat ->
  unpackHeader2 s = Raise StructError.
Proof.
  intros Hr H. unfold unpackHeader2.
  rewrite (bind_Ok _ _ _ _ _ Hr). cbv beta.
  unfold bind at 1, modify.
  rewrite (bind_Ok _ _ _ _ _ (read_after 4 (set_frameSize r s1))). cbv beta.
  change (skipn (cursor (set_frameSize r s1)) (handle (set_frameSize r s1)))
    with (skipn (cursor s1) (handle s1)).
  rewrite firstn_all2 by lia. apply Nat.lt_neq in H.
  rewrite (proj2 (Nat.eqb_neq _ _) H). reflexivity.
Qed.

(** *** Extra properties of [SWFTag] and [tagCodeTranslation] *)

(** [SWFTag.__init__] prints the unknown-code warning exactly when the
    code is missing from [tagCodeTranslation], and then names the tag
    "!UNKNOWN!"; for a known code it takes the registry's name and changes
    nothing else. *)
Theorem new_SWFTag_warning (c l : Z) (s s' : SWFFile) (t : SWFTag) :
  new_SWFTag c l s = Ok t s' ->
  (dict_lookup tagCodeTranslation c = None /\ t = mkSWFTag c l "!UNKNOWN!" /\
   s' = set_stdout (stdout s ++ [WarnUnknownTagCode c])%list s) \/
  (exists v, dict_lookup tagCodeTranslation c = Some v /\ t = mkSWFTag c l v /\ s' = s).
Proof.
  rewrite new_SWFTag_spec. intros H. injection H as <- <-.
  unfold tag_of, unknown_out, dict_get.
  destruct (dict_lookup tagCodeTranslation c) as [v|] eqn:E.
  - right. exists v. split; [reflexivity|split; [reflexivity|]].
    rewrite (proj2 (String.eqb_neq v "!UNKNOWN!") (registry_not_unknown c v E)).
    apply after_id.
  - left. split; [reflexivity|split; [reflexivity|]].
    destruct s. unfold after. cbn. rewrite app_nil_r. reflexivity.
Qed.

(** A tag built by [SWFTag.__init__] is an End tag exactly when its code
    is 0: no other code of the registry is named "End". *)
Theorem new_SWFTag_isEndTag (c l : Z) (s s' : SWFFile) (t : SWFTag) :
  new_SWFTag c l s = Ok t s' -> isEndTag t = (c =? 0).
Proof.
  rewrite new_SWFTag_spec. intros H. injection H as <- _.
  apply isEndTag_tag_of.
Qed.

(** No two codes of [tagCodeTranslation] share a type name, so the name
    of a known tag determines its code. *)
Theorem tagCodeTranslation_names_unique (c1 c2 : Z) (v : string) :
  dict_lookup tagCodeTranslation c1 = Some v ->
  dict_lookup tagCodeTranslation c2 = Some v -> c1 = c2.
Proof.
  intros H1 H2.
  exact (registry_snd_unique _ _ _ _ tagCodeTranslation_names_NoDup
           (dict_lookup_In _ _ _ H1) (dict_lookup_In _ _ _ H2)).
Qed.

(** *** Instances of the extra properties *)

Lemma unpackTags_only_appends_witness :
  unpackTags (open_file [64; 0]) =
    Ok tt (after (open_file [64; 0]) 2 [mkSWFTag 1 0 "ShowFrame"] []) /\
  exists ts o, after (open_file [64; 0]) 2 [mkSWFTag 1 0 "ShowFrame"] [] =
               after (open_file [64; 0]) 2 ts o.
Proof.
  assert (H : unpackTags (open_file [64; 0]) =
                Ok tt (after (open_file [64; 0]) 2 [mkSWFTag 1 0 "ShowFrame"] [])) by reflexivity.
  split; [exact H|].
  exact (unpackTags_only_appends _ _ _ H).
Defined.

Lemma unpackTags_tags_well_formed_witness :
  byte_range [64; 0] /\
  unpackTags (open_file [64; 0]) =
    Ok tt (after (open_file [64; 0]) 2 [mkSWFTag 1 0 "ShowFrame"] []) /\
  exists ts, tags (after (open_file [64; 0]) 2 [mkSWFTag 1 0 "ShowFrame"] []) =
             (tags (open_file [64; 0]) ++ ts)%list /\ Forall tag_ok ts.
Proof.
  assert (Hb : byte_range [64; 0]) by (repeat constructor; lia).
  assert (H : unpackTags (open_file [64; 0]) =
                Ok tt (after (open_file [64; 0]) 2 [mkSWFTag 1 0 "ShowFrame"] [])) by reflexivity.
  split; [exact Hb|split; [exact H|]].
  exact (unpackTags_tags_well_formed (open_file [64; 0]) _ _ Hb H).
Defined.

Lemma unpackTags_empty_witness :
  skipn 2 [64; 0] = [] /\
  unpackTags (set_cursor 2 (open_file [64; 0])) = Ok tt (set_cursor 2 (open_file [64; 0])).
Proof.
  split; [reflexivity|].
  apply (unpackTags_empty (set_cursor 2 (open_file [64; 0]))). reflexivity.
Defined.

Lemma unpackTags_single_byte_file_witness :
  unpackTags (open_file [5]) = Raise OSError.
Proof. exact (unpackTags_single_byte_file (open_file [5]) 5 eq_refl eq_refl). Defined.

Lemma unpackTags_roundtrip_witness :
  Forall wf_tag [mkTagRec 9 3 false [1; 2; 3]; mkTagRec 1 0 false []] /\
  unpackTags (open_file [67; 2; 1; 2; 3; 64; 0]) =
    Ok tt (after (open_file [67; 2; 1; 2; 3; 64; 0]) 7
             [mkSWFTag 9 3 "SetBackgroundColor"; mkSWFTag 1 0 "ShowFrame"] []).
Proof.
  assert (Hw : Forall wf_tag [mkTagRec 9 3 false [1; 2; 3]; mkTagRec 1 0 false []]).
  { repeat constructor; cbn; intros; try lia. }
  split; [exact Hw|].
  apply (unpackTags_roundtrip (open_file [67; 2; 1; 2; 3; 64; 0]) _ Hw).
  reflexivity.
Defined.

Lemma unpackTags_raise_only_witness :
  unpackTags (open_file [5]) = Raise OSError /\ (OSError = StructError \/ OSError = OSError).
Proof.
  assert (H : unpackTags (open_file [5]) = Raise OSError) by reflexivity.
  split; [exact H|]. exact (unpackTags_raise_only _ _ H).
Defined.

Lemma unpackRect_roundtrip_witness :
  unpackRect (open_file (encode_rect 31 (-1073741824) 1073741823 0 (-1) ++ [7])%list) =
  Ok (mkSWFRect (-1073741824) 1073741823 0 (-1))
     (set_cursor 17 (open_file (encode_rect 31 (-1073741824) 1073741823 0 (-1) ++ [7])%list)).
Proof.
  apply (unpackRect_roundtrip (open_file (encode_rect 31 (-1073741824) 1073741823 0 (-1) ++ [7])%list) 31 (-1073741824) 1073741823 0 (-1) [7]);
    [lia | unfold fits_signed; cbn; lia .. | reflexivity].
Defined.

Lemma unpackRect_fails_witness :
  unpackRect (open_file [120]) = Raise BitstructError.
Proof. apply (unpackRect_fails (open_file [120])). cbn. reflexivity. Defined.

Lemma unpackTagHeader_short_form_witness :
  unpackTagHeader (open_file [67; 2; 1; 2; 3]) =
  Ok (tag_of 9 3) (after (open_file [67; 2; 1; 2; 3]) 2 [] (unknown_out 9)).
Proof. apply (unpackTagHeader_short_form (open_file [67; 2; 1; 2; 3]) 9 3 [1; 2; 3]); [lia | lia | reflexivity]. Defined.

Lemma unpackTagHeader_truncated_witness :
  unpackTagHeader (open_file [67]) = Raise StructError.
Proof. apply (unpackTagHeader_truncated (open_file [67])). cbn. lia. Defined.

Lemma unpackTagHeader_long_truncated_witness :
  unpackTagHeader (open_file [127; 2; 0; 0]) = Raise StructError.
Proof.
  apply (unpackTagHeader_long_truncated (open_file [127; 2; 0; 0]) 127 2 [0; 0]); [reflexivity | reflexivity | cbn; lia].
Defined.

Lemma unpackHeader1_fields_witness :
  unpackHeader1 (open_file [67; 87; 83; 10; 210; 4; 0; 0; 120]) =
  Ok tt (set_signature "CWS" (set_compression "zlib"
           (set_version_fileLength 10 1234 (set_cursor 8 (open_file [67; 87; 83; 10; 210; 4; 0; 0; 120]))))).
Proof.
  apply (unpackHeader1_fields (open_file [67; 87; 83; 10; 210; 4; 0; 0; 120]) [67; 87; 83] "zlib" "CWS" 10 1234 [120]);
    [right; left; reflexivity | split; [lia | reflexivity] | reflexivity].
Defined.

Lemma unpackHeader1_truncated_witness :
  unpackHeader1 (open_file [70; 87; 83; 10]) = Raise StructError.
Proof. apply (unpackHeader1_truncated (open_file [70; 87; 83; 10])). cbn. lia. Defined.

Lemma unpackHeader2_fields_witness :
  unpackHeader2 (open_file [8; 0; 0; 24; 1; 0]) =
  Ok tt (set_frameRate_frameCount 6144 1
           (set_cursor 6 (set_frameSize (mkSWFRect 0 0 0 0) (set_cursor 2 (open_file [8; 0; 0; 24; 1; 0]))))).
Proof.
  apply (unpackHeader2_fields (open_file [8; 0; 0; 24; 1; 0]) (set_cursor 2 (open_file [8; 0; 0; 24; 1; 0]))
           (mkSWFRect 0 0 0 0) 0 24 1 0 []); reflexivity.
Defined.

Lemma unpackHeader2_truncated_witness :
  unpackHeader2 (open_file [8; 0; 0; 24]) = Raise StructError.
Proof.
  apply (unpackHeader2_truncated (open_file [8; 0; 0; 24]) (set_cursor 2 (open_file [8; 0; 0; 24])) (mkSWFRect 0 0 0 0));
    [reflexivity | cbn; lia].
Defined.

Lemma new_SWFTag_warning_witness :
  new_SWFTag 99 0 (open_file []) =
    Ok (mkSWFTag 99 0 "!UNKNOWN!") (set_stdout [WarnUnknownTagCode 99] (open_file [])) /\
  ((dict_lookup tagCodeTranslation 99 = None /\
    mkSWFTag 99 0 "!UNKNOWN!" = mkSWFTag 99 0 "!UNKNOWN!" /\
    set_stdout [WarnUnknownTagCode 99] (open_file []) =
      set_stdout (stdout (open_file []) ++ [WarnUnknownTagCode 99])%list (open_file [])) \/
   (exists v, dict_lookup tagCodeTranslation 99 = Some v /\
      mkSWFTag 99 0 "!UNKNOWN!" = mkSWFTag 99 0 v /\
      set_stdout [WarnUnknownTagCode 99] (open_file []) = open_file [])).
Proof.
  assert (H : new_SWFTag 99 0 (open_file []) =
    Ok (mkSWFTag 99 0 "!UNKNOWN!") (set_stdout [WarnUnknownTagCode 99] (open_file []))) by reflexivity.
  split; [exact H|]. exact (new_SWFTag_warning _ _ _ _ _ H).
Defined.

Lemma new_SWFTag_isEndTag_witness :
  new_SWFTag 0 5 (open_file []) = Ok (mkSWFTag 0 5 "End") (open_file []) /\
  isEndTag (mkSWFTag 0 5 "End") = (0 =? 0).
Proof.
  assert (H : new_SWFTag 0 5 (open_file []) = Ok (mkSWFTag 0 5 "End") (open_file [])) by reflexivity.
  split; [exact H|]. exact (new_SWFTag_isEndTag _ _ _ _ _ H).
Defined.

Lemma tagCodeTranslation_names_unique_witness :
  dict_lookup tagCodeTranslation 9 = Some "SetBackgroundColor" /\ 9 = 9.
Proof.
  split; [reflexivity|].
  exact (tagCodeTranslation_names_unique 9 9 "SetBackgroundColor" eq_refl eq_refl).
Defined.
